(** * File-Converter: a shallow embedding of [app.py]

    The program converts headerless delimited partition files into
    JSON-Lines files, naming the columns from [schemas.json].  This
    development embeds the seven functions of [app.py] ([main],
    [convert_file], [process_files], [read_schema], [get_column_names],
    [read_csv], [to_json]) over an explicit model of the file system, the
    logger and the library calls they make, and checks the specification's
    statements against them.

    Conventions.
    - A computation of the program is a function from the machine state to
      an outcome (a value or a raised exception) and the next state: the
      state outlives a raised exception, as the files and the log do.
    - Library calls ([glob.glob], [os.path], [json.load], [pandas.read_csv],
      [DataFrame.to_json]) are modelled from their documented behaviour; the
      comment of each one says what part of the library it covers. *)

From Stdlib Require Import List String Ascii ZArith Bool Arith Lia.
From Stdlib Require Import Permutation Sorted.
Import ListNotations.
Local Open Scope string_scope.
Local Open Scope list_scope.

Set Warnings "-register-all".


(* ================================================================== *)
(** * Strings and paths *)
(* ================================================================== *)

Module Str.

Definition chars (s : string) : list ascii := list_ascii_of_string s.
Definition of_chars (l : list ascii) : string := string_of_list_ascii l.

Definition slash : ascii := "/"%char.
Definition dot : ascii := "."%char.

Definition is_slash (c : ascii) : bool := Ascii.eqb c slash.

(** [s.startswith(p)] on character lists, returning the remainder. *)
Fixpoint strip_prefix (p s : list ascii) : option (list ascii) :=
  match p, s with
  | [], _ => Some s
  | _ :: _, [] => None
  | a :: p', b :: s' => if Ascii.eqb a b then strip_prefix p' s' else None
  end.

Definition starts_with (p s : list ascii) : bool :=
  match strip_prefix p s with Some _ => true | None => false end.

(** The part of [s] after its last ["/"] and the part up to and including
    it: [s[i:]] and [s[:i]] for [i = s.rfind("/") + 1]. *)
Fixpoint after_last_slash (s : list ascii) : list ascii :=
  match s with
  | [] => []
  | c :: s' =>
      if existsb is_slash s then
        (if existsb is_slash s' then after_last_slash s' else s')
      else s
  end.

Fixpoint upto_last_slash (s : list ascii) : list ascii :=
  match s with
  | [] => []
  | c :: s' =>
      if existsb is_slash s then
        c :: (if existsb is_slash s' then upto_last_slash s' else [])
      else []
  end.

(** [s.rstrip("/")]. *)
Fixpoint rstrip_slash (s : list ascii) : list ascii :=
  match s with
  | [] => []
  | c :: s' =>
      match rstrip_slash s' with
      | [] => if is_slash c then [] else [c]
      | r => c :: r
      end
  end.

(** Split at the first ["/"]: [Some (before, after)], or [None] when
    there is none. *)
Fixpoint split_first_slash (s : list ascii) : option (list ascii * list ascii) :=
  match s with
  | [] => None
  | c :: s' =>
      if is_slash c then Some ([], s')
      else match split_first_slash s' with
           | Some (a, b) => Some (c :: a, b)
           | None => None
           end
  end.

(** Split [s] on every occurrence of the separator [sep]
    ([s.split(sep)] for a one-character separator). *)
Fixpoint split_on (sep : ascii) (s : list ascii) : list (list ascii) :=
  match s with
  | [] => [[]]
  | c :: s' =>
      if Ascii.eqb c sep then [] :: split_on sep s'
      else match split_on sep s' with
           | [] => [[c]]
           | w :: ws => (c :: w) :: ws
           end
  end.

(** Decimal digits of an integer ([str(z)]). *)
Definition digit_char (d : Z) : ascii := ascii_of_nat (48 + Z.to_nat d).

Fixpoint Z_digits (fuel : nat) (n : Z) (acc : list ascii) : list ascii :=
  match fuel with
  | O => acc
  | S fuel' =>
      let acc' := digit_char (n mod 10) :: acc in
      if (n / 10 =? 0)%Z then acc' else Z_digits fuel' (n / 10) acc'
  end.

Definition Z_to_chars (z : Z) : list ascii :=
  let n := Z.abs z in
  let ds := Z_digits (S (Z.to_nat (Z.log2 n))) n [] in
  if (z <? 0)%Z then "-"%char :: ds else ds.

Definition Z_to_string (z : Z) : string := of_chars (Z_to_chars z).

End Str.

(** ** The [os.path] functions the program calls (POSIX flavour) *)

Module OsPath.
Import Str.

(** [os.path.join(a, b)]: an absolute [b] discards [a]; otherwise the two
    are joined with one ["/"] unless [a] is empty or already ends in one. *)
Definition join (a b : string) : string :=
  if starts_with [slash] (chars b) then b
  else match rev (chars a) with
       | [] => b
       | c :: _ => if is_slash c then (a ++ b)%string
                   else (a ++ "/" ++ b)%string
       end.

(** [os.path.split(p)]: head and tail around the last ["/"]; the head
    loses its trailing slashes unless it consists of slashes only. *)
Definition split (p : string) : string * string :=
  let head := upto_last_slash (chars p) in
  let tail := after_last_slash (chars p) in
  let head' := if forallb is_slash head then head else rstrip_slash head in
  (of_chars head', of_chars tail).

(** [os.path.basename(p)]: the second component of [split]. *)
Definition basename (p : string) : string :=
  of_chars (after_last_slash (chars p)).

(** [genericpath._splitext] on the characters after the last ["/"]:
    [split_ext_name b] cuts [b] at its last dot, provided some character
    before that dot is not a dot. *)
Fixpoint cut_last_dot (b : list ascii) : option (list ascii * list ascii) :=
  match b with
  | [] => None
  | c :: b' =>
      match cut_last_dot b' with
      | Some (r, e) => Some (c :: r, e)
      | None => if Ascii.eqb c dot then Some ([], b) else None
      end
  end.

Definition split_ext_name (b : list ascii) : list ascii * list ascii :=
  match cut_last_dot b with
  | Some (r, e) =>
      if forallb (fun c => Ascii.eqb c dot) r then (b, []) else (r, e)
  | None => (b, [])
  end.

(** [os.path.splitext(p)]. *)
Definition splitext (p : string) : string * string :=
  let d := upto_last_slash (chars p) in
  let b := after_last_slash (chars p) in
  let '(r, e) := split_ext_name b in
  (of_chars (d ++ r), of_chars e).

End OsPath.

(* ================================================================== *)
(** * Exceptions, machine state and the computation monad *)
(* ================================================================== *)

(** The two ways the program meets a [FileNotFoundError]: [open] failing on
    a path (errno 2 with the file name), and [main] raising one itself with
    a message when the dataset scan finds nothing. *)
Inductive fnf_args : Type :=
| Errno2 (filename : string)
| Message (text : string).

(** Python exception classes the program raises, catches or lets through. *)
Inductive exn : Type :=
| NameError (text : string)
| FileNotFoundError (args : fnf_args)
| IsADirectoryError (filename : string)
| FileExistsError (filename : string)
| PermissionError (filename : string)
| ValueError (text : string)
| KeyError (key : string)
| TypeError
| JSONDecodeError
| ParserError (expected line saw : nat)
| EmptyDataError.

(** [isinstance(e, OSError)]; [IOError] is an alias of [OSError]. *)
Definition is_IOError (e : exn) : bool :=
  match e with
  | FileNotFoundError _ | IsADirectoryError _
  | FileExistsError _ | PermissionError _ => true
  | _ => false
  end.

Definition is_FileNotFoundError (e : exn) : bool :=
  match e with FileNotFoundError _ => true | _ => false end.
Definition is_JSONDecodeError (e : exn) : bool :=
  match e with JSONDecodeError => true | _ => false end.
Definition is_KeyError (e : exn) : bool :=
  match e with KeyError _ => true | _ => false end.
Definition is_ParserError (e : exn) : bool :=
  match e with ParserError _ _ _ => true | _ => false end.
Definition is_NameError (e : exn) : bool :=
  match e with NameError _ => true | _ => false end.

Inductive outcome (A : Type) : Type :=
| Ok (a : A)
| Err (e : exn).
Arguments Ok {A} a.
Arguments Err {A} e.

(** ** Schema documents

    [schemas.json] has the shape [{dataset: [{key: value, ...}, ...], ...}].
    The values of a column entry are modelled as JSON scalars (null,
    integer, string); floating-point, boolean and nested values are outside
    the model.  Dictionaries are association lists looked up from the
    front. *)
Inductive scalar : Type :=
| SNull
| SInt (z : Z)
| SStr (s : string).

Definition column_entry : Type := list (string * scalar).
Definition schema : Type := list (string * list column_entry).

Definition scalar_eqb (a b : scalar) : bool :=
  match a, b with
  | SNull, SNull => true
  | SInt x, SInt y => Z.eqb x y
  | SStr x, SStr y => String.eqb x y
  | _, _ => false
  end.

(** ** Files *)

(** A file is its text lines; [file_json] is what [json.load] returns on
    it when the text is a JSON document of the schema's shape, and [None]
    when [json.load] raises [JSONDecodeError]. *)
Record file : Type := mkFile {
  file_lines : list string;
  file_json : option schema
}.

Inductive node : Type :=
| File (f : file)
| Dir.

Definition text_file (lines : list string) : node := File (mkFile lines None).

(** The file system is a listing of paths in the order the operating
    system enumerates them.  Paths are compared as written: a relative path
    is relative to the working directory of the process, and only the leaf
    directory of a [makedirs] is recorded. *)
Definition filesystem : Type := list (string * node).

Fixpoint lookup {V : Type} (k : string) (m : list (string * V)) : option V :=
  match m with
  | [] => None
  | (k', v) :: m' => if String.eqb k k' then Some v else lookup k m'
  end.

Fixpoint store {V : Type} (k : string) (v : V) (m : list (string * V))
  : list (string * V) :=
  match m with
  | [] => [(k, v)]
  | (k', v') :: m' =>
      if String.eqb k k' then (k, v) :: m' else (k', v') :: store k v m'
  end.

(** ** The logger *)

Inductive level : Type := INFO | WARNING | ERROR | CRITICAL.

(** [logger] is the application logger the decorator passes around;
    [convert_file] reports its failure through the root logger
    ([logging.critical]). *)
Inductive logger_name : Type := AppLogger | RootLogger.

(** The argument of [main], an [Optional[str | list]]: [None], one string,
    or a list of strings. *)
Inductive ds_arg : Type :=
| DsNone
| DsStr (s : string)
| DsList (l : list string).

(** One constructor per logging call of [app.py], with the values its
    format string interpolates. *)
Inductive message : Type :=
| MissingEnvironment (e : exn)
| NoDatasetArgument
| RunWithArguments (ds_names : ds_arg)
| UnhandledException (e : exn)
| ProcessedToJson (ds_name csv_file : string)
| ErrorProcessing (ds_name csv_file : string)
| SearchDirCreated (search_dir : string)
| NoFileInSearchDir (search_dir : string)
| FoundFile (file src_base_dir table : string)
| SchemaLoaded (schema_dir : string)
| NoSchemaFile (schema_dir : string) (e : exn)
| SchemaUnparsable (schema_dir : string) (e : exn)
| ColumnNamesRetrieved (table : string)
| MalformedSchema (sorting_key : string) (e : exn)
| SchemaUnhandled (e : exn)
| CsvRead (file_path : string)
| CsvParseError (file_path : string) (e : exn)
| CsvUnhandled (file_path : string) (e : exn)
| JsonDirCreated (json_dir : string)
| JsonWritten (json_file_name : string)
| JsonIOError (e : exn)
| JsonUnhandled (e : exn).

Record log_entry : Type := mkLog {
  log_logger : logger_name;
  log_level : level;
  log_message : message
}.

(** ** Input/output performed, in order *)
Inductive io_event : Type :=
| IoGlob (pattern : string)
| IoLoadJson (path : string)
| IoReadCsv (path : string)
| IoMakedirs (path : string)
| IoWrite (path : string).

(** ** Machine state *)
Record state : Type := mkState {
  environ : list (string * string);
  fs : filesystem;
  denied : list string;      (* paths the process may not create or write *)
  log : list log_entry;      (* oldest first *)
  io : list io_event         (* oldest first *)
}.

Definition M (A : Type) : Type := state -> outcome A * state.

Definition ret {A : Type} (a : A) : M A := fun st => (Ok a, st).

Definition raise {A : Type} (e : exn) : M A := fun st => (Err e, st).

Definition bind {A B : Type} (m : M A) (k : A -> M B) : M B :=
  fun st =>
    match m st with
    | (Ok a, st') => k a st'
    | (Err e, st') => (Err e, st')
    end.

(** [try: m  except Exception as e: handler(e)]. *)
Definition try_except {A : Type} (m : M A) (handler : exn -> M A) : M A :=
  fun st =>
    match m st with
    | (Ok a, st') => (Ok a, st')
    | (Err e, st') => handler e st'
    end.

Definition lift {A : Type} (o : outcome A) : M A := fun st => (o, st).

Declare Scope prog_scope.
Delimit Scope prog_scope with prog.
Notation "x <- m ;; k" := (bind m (fun x => k))
  (at level 61, m at next level, right associativity) : prog_scope.
Notation "m ;; k" := (bind m (fun _ => k))
  (at level 61, right associativity) : prog_scope.
Local Open Scope prog_scope.

Definition get_state : M state := fun st => (Ok st, st).

(** The state after one more log entry. *)
Definition logged (st : state) (who : logger_name) (lv : level) (m : message)
  : state :=
  mkState (environ st) (fs st) (denied st) (log st ++ [mkLog who lv m]) (io st).

Definition emit (who : logger_name) (lv : level) (m : message) : M unit :=
  fun st => (Ok tt, logged st who lv m).

Definition record_io (ev : io_event) : M unit :=
  fun st =>
    (Ok tt, mkState (environ st) (fs st) (denied st) (log st) (io st ++ [ev])).

Definition set_fs (fs' : filesystem) : M unit :=
  fun st => (Ok tt, mkState (environ st) fs' (denied st) (log st) (io st)).

(** [os.environ.get(name)]. *)
Definition environ_get (name : string) : M (option string) :=
  fun st => (Ok (lookup name (environ st)), st).

(** ** Generators

    A Python generator is a suspended computation: resuming it runs the
    body up to the next [yield] (giving the value and the generator's
    continuation), to its end ([None], that is [StopIteration]), or to a
    raised exception. *)
Inductive generator (A : Type) : Type :=
| Gen (resume : state -> outcome (option (A * generator A)) * state).

Arguments Gen {A} resume.

(** [next(g)]. *)
Definition next {A : Type} (g : generator A) : M (option (A * generator A)) :=
  match g with Gen resume => resume end.

(** [for x in g: body(x)]. *)
Fixpoint for_each {A : Type} (g : generator A) (body : A -> M unit)
  (st : state) {struct g} : outcome unit * state :=
  match g with
  | Gen resume =>
      match resume st with
      | (Ok (Some (x, g')), st1) =>
          match body x st1 with
          | (Ok _, st2) => for_each g' body st2
          | (Err e, st2) => (Err e, st2)
          end
      | (Ok None, st1) => (Ok tt, st1)
      | (Err e, st1) => (Err e, st1)
      end
  end.

(** [list(g)]: the values a generator yields until it stops. *)
Fixpoint drain {A : Type} (g : generator A) (st : state) {struct g}
  : outcome (list A) * state :=
  match g with
  | Gen resume =>
      match resume st with
      | (Ok (Some (x, g')), st1) =>
          match drain g' st1 with
          | (Ok xs, st2) => (Ok (x :: xs), st2)
          | (Err e, st2) => (Err e, st2)
          end
      | (Ok None, st1) => (Ok [], st1)
      | (Err e, st1) => (Err e, st1)
      end
  end.

(** [for x in l: body(x)] over a list. *)
Fixpoint for_list {A : Type} (l : list A) (body : A -> M unit) : M unit :=
  match l with
  | [] => ret tt
  | x :: l' => body x ;; for_list l' body
  end.

(* ================================================================== *)
(** * Library models: [glob], [pandas] *)
(* ================================================================== *)

(** ** [glob.glob]

    The program globs two patterns, [f"{dir}/part-*"] for one dataset
    directory and [f"{root}/*/part-*"] for all of them.  [root] and [dir]
    are taken literally (no wildcard of their own). A ["*"] matches within
    one path component, and a component that begins with a dot only when
    the pattern spells the dot. *)
Module Glob.
Import Str.

Inductive pattern : Type :=
| PartsIn (dir : string)        (* dir/part-*   *)
| PartsBelow (root : string).   (* root/*/part-* *)

Definition pattern_text (p : pattern) : string :=
  match p with
  | PartsIn dir => (dir ++ "/part-*")%string
  | PartsBelow root => (root ++ "/*/part-*")%string
  end.

(** A file name matched by [part-*]. *)
Definition is_part_name (f : list ascii) : bool :=
  starts_with (chars "part-") f && negb (existsb is_slash f).

(** A directory name matched by [*]. *)
Definition is_star_name (d : list ascii) : bool :=
  match d with
  | [] => false
  | c :: _ => negb (Ascii.eqb c dot)
  end.

Definition matches (pat : pattern) (path : string) : bool :=
  match pat with
  | PartsIn dir =>
      match strip_prefix (chars dir ++ [slash]) (chars path) with
      | Some f => is_part_name f
      | None => false
      end
  | PartsBelow root =>
      match strip_prefix (chars root ++ [slash]) (chars path) with
      | Some rest =>
          match split_first_slash rest with
          | Some (d, f) => is_star_name d && is_part_name f
          | None => false
          end
      | None => false
      end
  end.

(** The paths of the listing, each once. *)
Definition listing (fs : filesystem) : list string :=
  nodup string_dec (map fst fs).

Definition glob_in (fs : filesystem) (pat : pattern) : list string :=
  filter (matches pat) (listing fs).

(** [glob.glob(pattern)] as a computation. *)
Definition glob (pat : pattern) : M (list string) :=
  record_io (IoGlob (pattern_text pat)) ;;
  st <- get_state ;;
  ret (glob_in (fs st) pat).

End Glob.

(** ** [pandas.read_csv(path, names=...)] and
       [DataFrame.to_json(path, orient='records', lines=True)]

    Covered: comma-separated lines without quoting, the default list of
    missing-value markers, columns of integers, of plain decimal numbers,
    of booleans and of text.  A decimal number is kept by its digits, which
    is what the writer prints back for numbers of at most ten decimal
    places; exponent notation and the rounding of longer numbers are
    outside the model, and so is the escaping of characters other than the
    double quote, the backslash and the slash in the strings written. *)
Module Pandas.
Import Str.

Inductive cell : Type :=
| CNull
| CBool (b : bool)
| CInt (z : Z)
| CFloat (repr : string)
| CStr (s : string).

Inductive dtype : Type := Int64 | Float64 | BoolT | Object.

(** A frame: the column labels and, per row, the cells in label order
    (the index is not part of it: [orient='records'] drops it). *)
Record DataFrame : Type := mkDF {
  columns : list scalar;
  records : list (list cell)
}.

(** *** Tokenizer *)

Definition fields_of (line : string) : list string :=
  map of_chars (split_on ","%char (chars line)).

(** Blank lines are skipped ([skip_blank_lines=True]). *)
Definition tokenize (lines : list string) : list (list string) :=
  map fields_of (filter (fun l => negb (String.eqb l "")) lines).

(** A row shorter than the table is completed with missing cells. *)
Definition pad (w : nat) (r : list string) : list (option string) :=
  map Some r ++ repeat None (w - List.length r).

(** Rows after the first may not be longer than the table:
    "Expected w fields in line l, saw k". *)
Fixpoint align (w : nat) (line : nat) (rows : list (list string))
  : outcome (list (list (option string))) :=
  match rows with
  | [] => Ok []
  | r :: rest =>
      if (w <? List.length r)%nat then Err (ParserError w line (List.length r))
      else match align w (S line) rest with
           | Ok t => Ok (pad w r :: t)
           | Err e => Err e
           end
  end.

(** The table of a file read against [n] names.  Its width is the larger
    of [n] and the first row's field count; the columns in excess of the
    names, counted from the left, become the index. *)
Definition table_width (n : nat) (rows : list (list string)) : nat :=
  match rows with
  | [] => n
  | r :: _ => Nat.max (List.length r) n
  end.

Definition table_of (n : nat) (rows : list (list string))
  : outcome (list (list (option string))) :=
  let w := table_width n rows in
  match rows with
  | [] => Ok []
  | r :: rest =>
      match align w 2 rest with
      | Ok t => Ok (pad w r :: t)
      | Err e => Err e
      end
  end.

Definition leading_cols (n : nat) (rows : list (list string)) : nat :=
  table_width n rows - n.

(** *** Type inference *)

Definition na_values : list string :=
  [""; "#N/A"; "#N/A N/A"; "#NA"; "-1.#IND"; "-1.#QNAN"; "-NaN"; "-nan";
   "1.#IND"; "1.#QNAN"; "<NA>"; "N/A"; "NA"; "NULL"; "NaN"; "None";
   "n/a"; "nan"; "null"].

Definition is_na (t : option string) : bool :=
  match t with
  | None => true
  | Some s => existsb (String.eqb s) na_values
  end.

Definition is_digit (c : ascii) : bool :=
  let n := nat_of_ascii c in ((48 <=? n)%nat && (n <=? 57)%nat).

Definition digit_val (c : ascii) : Z := Z.of_nat (nat_of_ascii c - 48).

Definition digits_val (ds : list ascii) : Z :=
  fold_left (fun acc c => (10 * acc + digit_val c)%Z) ds 0%Z.

(** Sign and magnitude characters of a numeric token. *)
Definition split_sign (s : list ascii) : bool * list ascii :=
  match s with
  | c :: s' =>
      if Ascii.eqb c "-"%char then (true, s')
      else if Ascii.eqb c "+"%char then (false, s')
      else (false, s)
  | [] => (false, [])
  end.

Definition parse_int (s : string) : option Z :=
  let '(neg, ds) := split_sign (chars s) in
  match ds with
  | [] => None
  | _ :: _ =>
      if forallb is_digit ds then
        Some (if neg then (- digits_val ds)%Z else digits_val ds)
      else None
  end.

(** Integer and fraction digits of a plain decimal number. *)
Definition parse_decimal (s : string)
  : option (bool * list ascii * list ascii) :=
  let '(neg, ds) := split_sign (chars s) in
  match split_on dot ds with
  | [i] =>
      match i with
      | [] => None
      | _ :: _ => if forallb is_digit i then Some (neg, i, []) else None
      end
  | [i; f] =>
      match i ++ f with
      | [] => None
      | _ :: _ =>
          if forallb is_digit i && forallb is_digit f
          then Some (neg, i, f) else None
      end
  | _ => None
  end.

Fixpoint drop_zeros (ds : list ascii) : list ascii :=
  match ds with
  | c :: ds' => if Ascii.eqb c "0"%char then drop_zeros ds' else ds
  | [] => []
  end.

Definition or_zero (ds : list ascii) : list ascii :=
  match ds with [] => ["0"%char] | _ => ds end.

(** What the writer prints for the number read from a decimal token. *)
Definition float_repr (neg : bool) (i f : list ascii) : string :=
  let i' := or_zero (drop_zeros i) in
  let f' := or_zero (rev (drop_zeros (rev f))) in
  of_chars ((if neg then ["-"%char] else []) ++ i' ++ [dot] ++ f').

Definition parse_bool (s : string) : option bool :=
  if existsb (String.eqb s) ["True"; "TRUE"; "true"] then Some true
  else if existsb (String.eqb s) ["False"; "FALSE"; "false"] then Some false
  else None.

Definition is_some {A : Type} (o : option A) : bool :=
  match o with Some _ => true | None => false end.

Definition is_int_token (t : option string) : bool :=
  match t with Some s => is_some (parse_int s) | None => false end.
Definition is_number_token (t : option string) : bool :=
  is_na t || match t with Some s => is_some (parse_decimal s) | None => false end.
Definition is_bool_token (t : option string) : bool :=
  is_na t || match t with Some s => is_some (parse_bool s) | None => false end.

(** The cast order of the reader: int64, float64, bool, object. *)
Definition dtype_of (col : list (option string)) : dtype :=
  if forallb is_int_token col then Int64
  else if forallb is_number_token col then Float64
  else if forallb is_bool_token col then BoolT
  else Object.

Definition convert (d : dtype) (t : option string) : cell :=
  if is_na t then CNull
  else match t with
       | None => CNull
       | Some s =>
           match d with
           | Int64 =>
               match parse_int s with Some z => CInt z | None => CStr s end
           | Float64 =>
               match parse_decimal s with
               | Some (neg, i, f) => CFloat (float_repr neg i f)
               | None => CStr s
               end
           | BoolT =>
               match parse_bool s with Some b => CBool b | None => CStr s end
           | Object => CStr s
           end
       end.

Definition column_at (j : nat) (table : list (list (option string)))
  : list (option string) :=
  map (fun r => nth j r None) table.

(** The record of one table row: the cells of the named columns, which
    start after the index columns. *)
Definition record_of (lead n : nat) (table : list (list (option string)))
  (r : list (option string)) : list cell :=
  map (fun j => convert (dtype_of (column_at j table)) (nth j r None))
      (seq lead n).

Fixpoint has_dup (l : list scalar) : bool :=
  match l with
  | [] => false
  | x :: l' => existsb (scalar_eqb x) l' || has_dup l'
  end.

(** Parsing the lines of a file against the names. *)
Definition parse (names : list scalar) (lines : list string)
  : outcome DataFrame :=
  let n := List.length names in
  let rows := tokenize lines in
  match rows, n with
  | [], O => Err EmptyDataError
  | _, _ =>
      match table_of n rows with
      | Ok table =>
          Ok (mkDF names
                (map (record_of (leading_cols n rows) n table) table))
      | Err e => Err e
      end
  end.

(** [pandas.read_csv(file_path, names=column_names)]. *)
Definition read_csv (file_path : string) (names : list scalar)
  : M DataFrame :=
  if has_dup names then raise (ValueError "Duplicate names are not allowed.")
  else
    record_io (IoReadCsv file_path) ;;
    st <- get_state ;;
    match lookup file_path (fs st) with
    | None => raise (FileNotFoundError (Errno2 file_path))
    | Some Dir => raise (IsADirectoryError file_path)
    | Some (File f) => lift (parse names (file_lines f))
    end.

(** *** JSON Lines writer *)

Definition dquote : ascii := ascii_of_nat 34.

Definition escape_char (c : ascii) : list ascii :=
  if Ascii.eqb c dquote then ["\"%char; dquote]
  else if Ascii.eqb c "\"%char then ["\"%char; "\"%char]
  else if Ascii.eqb c "/"%char then ["\"%char; "/"%char]
  else [c].

Definition quote (s : string) : string :=
  of_chars ([dquote] ++ flat_map escape_char (chars s) ++ [dquote]).

Definition label_text (l : scalar) : string :=
  match l with
  | SStr s => s
  | SInt z => Z_to_string z
  | SNull => "null"
  end.

Definition cell_text (c : cell) : string :=
  match c with
  | CNull => "null"
  | CBool true => "true"
  | CBool false => "false"
  | CInt z => Z_to_string z
  | CFloat r => r
  | CStr s => quote s
  end.

Fixpoint zip {A B : Type} (l : list A) (l' : list B) : list (A * B) :=
  match l, l' with
  | a :: t, b :: t' => (a, b) :: zip t t'
  | _, _ => []
  end.

Definition member_text (kv : scalar * cell) : string :=
  (quote (label_text (fst kv)) ++ ":" ++ cell_text (snd kv))%string.

Definition json_line (cols : list scalar) (rec : list cell) : string :=
  ("{" ++ String.concat "," (map member_text (zip cols rec)) ++ "}")%string.

Definition json_lines (df : DataFrame) : list string :=
  map (json_line (columns df)) (records df).

(** [df.to_json(path, orient='records', lines=True)]: the file is opened
    for writing (created or truncated) and receives one object per
    record. *)
Definition to_json (df : DataFrame) (path : string) : M unit :=
  record_io (IoWrite path) ;;
  st <- get_state ;;
  if existsb (String.eqb path) (denied st) then raise (PermissionError path)
  else match lookup path (fs st) with
       | Some Dir => raise (IsADirectoryError path)
       | _ => set_fs (store path (text_file (json_lines df)) (fs st))
       end.

End Pandas.

(** [os.makedirs(path, exist_ok=True)]. *)
Definition makedirs (path : string) : M unit :=
  record_io (IoMakedirs path) ;;
  st <- get_state ;;
  match lookup path (fs st) with
  | Some Dir => ret tt
  | Some (File _) => raise (FileExistsError path)
  | None =>
      if existsb (String.eqb path) (denied st) then raise (PermissionError path)
      else set_fs (fs st ++ [(path, Dir)])
  end.

(* ================================================================== *)
(** * The program *)
(* ================================================================== *)

(** ** Python values the program branches on *)

(** [d[key]] on a dictionary. *)
Definition getitem {V : Type} (d : list (string * V)) (key : string)
  : outcome V :=
  match lookup key d with
  | Some v => Ok v
  | None => Err (KeyError key)
  end.

(** [a < b] on the scalars of a column entry: integers with integers,
    strings with strings (by code point); anything else is a
    [TypeError]. *)
Definition py_lt (a b : scalar) : outcome bool :=
  match a, b with
  | SInt x, SInt y => Ok (x <? y)%Z
  | SStr x, SStr y => Ok (String.ltb x y)
  | _, _ => Err TypeError
  end.

(** [sorted(l, key=...)]: the keys are computed first, front to back; the
    sort is stable and compares keys with [<] only.  Insertion from the
    right end realises it: an element goes in front of the first sorted
    element that is not smaller than it. *)
Section Sorted.
Variable A : Type.

Fixpoint map_outcome {B : Type} (f : A -> outcome B) (l : list A)
  : outcome (list B) :=
  match l with
  | [] => Ok []
  | x :: l' =>
      match f x with
      | Err e => Err e
      | Ok y =>
          match map_outcome f l' with
          | Err e => Err e
          | Ok ys => Ok (y :: ys)
          end
      end
  end.

Fixpoint insert_keyed (x : scalar * A) (l : list (scalar * A))
  : outcome (list (scalar * A)) :=
  match l with
  | [] => Ok [x]
  | y :: l' =>
      match py_lt (fst y) (fst x) with
      | Err e => Err e
      | Ok true =>
          match insert_keyed x l' with
          | Ok r => Ok (y :: r)
          | Err e => Err e
          end
      | Ok false => Ok (x :: l)
      end
  end.

Fixpoint sort_keyed (l : list (scalar * A)) : outcome (list (scalar * A)) :=
  match l with
  | [] => Ok []
  | x :: l' =>
      match sort_keyed l' with
      | Ok s => insert_keyed x s
      | Err e => Err e
      end
  end.

Definition sorted (l : list A) (key : A -> outcome scalar)
  : outcome (list A) :=
  match map_outcome (fun x => match key x with
                              | Ok k => Ok (k, x)
                              | Err e => Err e
                              end) l with
  | Err e => Err e
  | Ok keyed =>
      match sort_keyed keyed with
      | Ok s => Ok (map snd s)
      | Err e => Err e
      end
  end.
End Sorted.

Arguments map_outcome {A B} f l.
Arguments insert_keyed {A} x l.
Arguments sort_keyed {A} l.
Arguments sorted {A} l key.

(** [not x] for the values [main] tests. *)
Definition falsy_str (o : option string) : bool :=
  match o with
  | None => true
  | Some s => String.eqb s ""
  end.

Definition falsy_arg (a : ds_arg) : bool :=
  match a with
  | DsNone => true
  | DsStr s => String.eqb s ""
  | DsList l => match l with [] => true | _ => false end
  end.

(** The values [for x in a] binds: the items of a list, the characters of
    a string. *)
Definition iterate (a : ds_arg) : outcome (list string) :=
  match a with
  | DsNone => Err TypeError
  | DsStr s => Ok (map (fun c => String c EmptyString) (Str.chars s))
  | DsList l => Ok l
  end.

(** ** [read_schema] *)

(** [open(path)] followed by [json.load]. *)
Definition load_json (path : string) : M schema :=
  record_io (IoLoadJson path) ;;
  st <- get_state ;;
  match lookup path (fs st) with
  | None => raise (FileNotFoundError (Errno2 path))
  | Some Dir => raise (IsADirectoryError path)
  | Some (File f) =>
      match file_json f with
      | Some doc => ret doc
      | None => raise JSONDecodeError
      end
  end.

Definition read_schema (src_base_dir : string) : M schema :=
  let schema_dir := OsPath.join src_base_dir "schemas.json" in
  try_except
    (schemas <- load_json schema_dir ;;
     emit AppLogger INFO (SchemaLoaded schema_dir) ;;
     ret schemas)
    (fun e =>
       if is_FileNotFoundError e then
         emit AppLogger ERROR (NoSchemaFile schema_dir e) ;; raise e
       else if is_JSONDecodeError e then
         emit AppLogger ERROR (SchemaUnparsable schema_dir e) ;; raise e
       else raise e).

(** ** [get_column_names] *)

Definition default_sorting_key : string := "column_position".

Definition get_column_names (schema : schema) (table : string)
  (sorting_key : string) : M (list scalar) :=
  try_except
    (entries <- lift (getitem schema table) ;;
     sorted_schema <-
       lift (sorted entries (fun col => getitem col sorting_key)) ;;
     col_name <-
       lift (map_outcome (fun col_detail => getitem col_detail "column_name")
                         sorted_schema) ;;
     emit AppLogger INFO (ColumnNamesRetrieved table) ;;
     ret col_name)
    (fun e =>
       if is_KeyError e then
         emit AppLogger ERROR (MalformedSchema sorting_key e) ;; raise e
       else
         emit AppLogger CRITICAL (SchemaUnhandled e) ;; raise e).

(** ** [process_files] *)

(** The loop [for file in csv_files: logger.info(...); yield file]. *)
Fixpoint yield_files (src_base_dir table : string) (csv_files : list string)
  : M (option (string * generator string)) :=
  match csv_files with
  | [] => ret None
  | file :: rest =>
      emit AppLogger INFO (FoundFile file src_base_dir table) ;;
      ret (Some (file, Gen (yield_files src_base_dir table rest)))
  end.

(** Calling [process_files] only builds the generator; its body runs when
    the generator is first resumed. *)
Definition process_files (src_base_dir table : string) : generator string :=
  Gen (let search_dir := Glob.PartsIn (src_base_dir ++ "/" ++ table)%string in
       emit AppLogger INFO (SearchDirCreated (Glob.pattern_text search_dir)) ;;
       csv_files <- Glob.glob search_dir ;;
       match csv_files with
       | [] =>
           emit AppLogger ERROR
                (NoFileInSearchDir (Glob.pattern_text search_dir)) ;;
           raise (ValueError "")
       | _ :: _ => yield_files src_base_dir table csv_files
       end).

(** ** [read_csv] *)

Definition read_csv (file_path : string) (column_names : list scalar)
  : M Pandas.DataFrame :=
  try_except
    (df <- Pandas.read_csv file_path column_names ;;
     emit AppLogger INFO (CsvRead file_path) ;;
     ret df)
    (fun e =>
       if is_ParserError e then
         emit AppLogger ERROR (CsvParseError file_path e) ;; raise e
       else
         emit AppLogger CRITICAL (CsvUnhandled file_path e) ;; raise e).

(** ** [to_json] *)

Definition json_file_name_of (csv_file_path : string) : string :=
  (fst (OsPath.splitext (OsPath.basename csv_file_path)) ++ ".json")%string.

Definition to_json (df : Pandas.DataFrame) (tgt_base_dir csv_file_path
  ds_name : string) : M bool :=
  try_except
    (let json_dir := OsPath.join tgt_base_dir ds_name in
     makedirs json_dir ;;
     let json_file_name := json_file_name_of csv_file_path in
     emit AppLogger INFO (JsonDirCreated json_dir) ;;
     Pandas.to_json df json_file_name ;;
     emit AppLogger INFO (JsonWritten json_file_name) ;;
     ret true)
    (fun e =>
       if is_IOError e then
         emit AppLogger ERROR (JsonIOError e) ;; raise e
       else
         emit AppLogger CRITICAL (JsonUnhandled e) ;; raise e).

(** ** [convert_file] *)

(** The body of the loop over the partition files. *)
Definition convert_partition (tgt_base_dir ds_name : string)
  (col_name : list scalar) (csv_file : string) : M unit :=
  df <- read_csv csv_file col_name ;;
  ok <- to_json df tgt_base_dir csv_file ds_name ;;
  if ok : bool then emit AppLogger INFO (ProcessedToJson ds_name csv_file)
  else emit AppLogger ERROR (ErrorProcessing ds_name csv_file).

Definition convert_file (src_base_dir tgt_base_dir ds_name : string)
  : M unit :=
  try_except
    (schema <- read_schema src_base_dir ;;
     col_name <- get_column_names schema ds_name default_sorting_key ;;
     for_each (process_files src_base_dir ds_name)
              (convert_partition tgt_base_dir ds_name col_name))
    (fun e => emit RootLogger CRITICAL (UnhandledException e) ;; raise e).

(** ** [main] *)

(** The base directories, from the environment. *)
Definition base_dirs : M (string * string) :=
  try_except
    (src_base_dir <- environ_get "SRC_BASE_DIR" ;;
     tgt_base_dir <- environ_get "TGT_BASE_DIR" ;;
     if falsy_str tgt_base_dir || falsy_str src_base_dir then
       raise (NameError "missing source or target base directory")
     else
       match src_base_dir, tgt_base_dir with
       | Some s, Some t => ret (s, t)
       | _, _ => raise (NameError "missing source or target base directory")
       end)
    (fun e =>
       if is_NameError e then
         emit AppLogger CRITICAL (MissingEnvironment e) ;; raise e
       else raise e).

Definition spaces (n : nat) : string := Str.of_chars (repeat " "%char n).

Definition no_file_message (src_base_dir : string) : string :=
  ("No file exists in " ++ src_base_dir ++ " with glob pattern:"
   ++ spaces 41 ++ "'" ++ src_base_dir ++ "/*/part-*'")%string.

(** The dataset names of the run: the argument when it is given, else the
    parent directory name of every file matched by the scan. *)
Definition dataset_names (src_base_dir : string) (ds_name : ds_arg)
  : M ds_arg :=
  if falsy_arg ds_name then
    emit AppLogger WARNING NoDatasetArgument ;;
    ds_names_dir <- Glob.glob (Glob.PartsBelow src_base_dir) ;;
    match ds_names_dir with
    | [] =>
        raise (FileNotFoundError (Message (no_file_message src_base_dir)))
    | _ :: _ =>
        ret (DsList (map (fun ds_dir =>
                            OsPath.basename (fst (OsPath.split ds_dir)))
                         ds_names_dir))
    end
  else
    emit AppLogger INFO (RunWithArguments ds_name) ;;
    ret ds_name.

Definition main (ds_name : ds_arg) : M unit :=
  dirs <- base_dirs ;;
  let '(src_base_dir, tgt_base_dir) := dirs in
  try_except
    (ds_names <- dataset_names src_base_dir ds_name ;;
     names <- lift (iterate ds_names) ;;
     for_list names (convert_file src_base_dir tgt_base_dir))
    (fun e => emit AppLogger CRITICAL (UnhandledException e) ;; raise e).

(* ================================================================== *)
(** * Observations on a run, and the states used as examples *)
(* ================================================================== *)

(** How many times a schema document was opened and loaded so far. *)
Definition is_load (ev : io_event) : bool :=
  match ev with IoLoadJson _ => true | _ => false end.

Definition schema_loads (st : state) : nat :=
  List.length (filter is_load (io st)).

(** Whether a log entry reports a partition as failed ("Error processing
    ... to JSON"). *)
Definition is_error_processing (l : log_entry) : bool :=
  match log_message l with ErrorProcessing _ _ => true | _ => false end.

(** The dataset names [main] finds when none is given. *)
Definition discovered (files : filesystem) (src_base_dir : string)
  : list string :=
  map (fun ds_dir => OsPath.basename (fst (OsPath.split ds_dir)))
      (Glob.glob_in files (Glob.PartsBelow src_base_dir)).

(** A dataset name that is one plain directory name: not empty, without
    ["/"], not beginning with a dot. *)
Definition plain_name (d : string) : Prop :=
  Glob.is_star_name (Str.chars d) = true /\
  existsb Str.is_slash (Str.chars d) = false.

(** The integer a column entry holds under a key (0 when it holds none). *)
Definition position_under (key : string) (col : column_entry) : Z :=
  match lookup key col with
  | Some (SInt z) => z
  | _ => 0%Z
  end.

(** The name a column entry holds ([SNull] when it holds none). *)
Definition name_under (col : column_entry) : scalar :=
  match lookup "column_name" col with
  | Some v => v
  | None => SNull
  end.

(** Sort keys that are integers, and their order. *)
Definition key_int (k : scalar) : Z :=
  match k with SInt z => z | _ => 0%Z end.

Definition int_keyed {A : Type} (e : scalar * A) : Prop :=
  exists z, fst e = SInt z.

Definition key_le {A : Type} (a b : scalar * A) : Prop :=
  (key_int (fst a) <= key_int (fst b))%Z.

Definition key_is {A : Type} (p : Z) (e : scalar * A) : bool :=
  Z.eqb (key_int (fst e)) p.

(** Computations that load no schema document. *)
Definition quiet {A : Type} (m : M A) : Prop :=
  forall st, schema_loads (snd (m st)) = schema_loads st.

Definition is_read_csv (ev : io_event) : bool :=
  match ev with IoReadCsv _ => true | _ => false end.


(** JSON text written by hand. *)
Module JsonText.
Definition dq : string := String Pandas.dquote EmptyString.
Definition str (s : string) : string := (dq ++ s ++ dq)%string.
Definition member (k v : string) : string := (str k ++ ":" ++ v)%string.
Definition object (ms : list string) : string :=
  ("{" ++ String.concat "," ms ++ "}")%string.
End JsonText.

Module Example.
Import JsonText.

Definition column (name : string) (position : Z) : column_entry :=
  [("column_name", SStr name); ("column_position", SInt position)].

Definition sales_schema : schema :=
  [("sales", [column "id" 0; column "name" 1; column "price" 2])].

Definition env : list (string * string) :=
  [("SRC_BASE_DIR", "/data/src"); ("TGT_BASE_DIR", "/data/tgt")].

Definition schema_file (doc : schema) : node :=
  File (mkFile ["(schema document)"] (Some doc)).

(** The end-to-end scenario of the specification: one dataset, one
    partition of two rows. *)
Definition sales_state : state :=
  mkState env
    [("/data/src/schemas.json", schema_file sales_schema);
     ("/data/src/sales/part-001",
      text_file ["1,Widget,9.99"; "2,Gadget,19.99"])]
    [] [] [].

Definition claimed_lines : list string :=
  [object [member "id" (str "1"); member "name" (str "Widget");
           member "price" (str "9.99")];
   object [member "id" (str "2"); member "name" (str "Gadget");
           member "price" (str "19.99")]].

Definition written_lines : list string :=
  [object [member "id" "1"; member "name" (str "Widget");
           member "price" "9.99"];
   object [member "id" "2"; member "name" (str "Gadget");
           member "price" "19.99"]].

(** Two datasets; [sales] has two partitions. *)
Definition two_schema : schema :=
  [("sales", [column "id" 0; column "name" 1]);
   ("stock", [column "sku" 0; column "city" 1])].

Definition two_files : filesystem :=
  [("/data/src/schemas.json", schema_file two_schema);
   ("/data/src/sales/part-001", text_file ["a,Widget"]);
   ("/data/src/sales/part-002", text_file ["b,Gadget"]);
   ("/data/src/stock/part-001", text_file ["c,Oslo"])].

Definition two_state : state := mkState env two_files [] [] [].


(** A source root with neither a schema document nor a dataset. *)
Definition empty_state : state := mkState env [] [] [] [].

(** Datasets present but no schema document. *)
Definition schemaless_state : state :=
  mkState env
    [("/data/src/sales/part-001", text_file ["a,Widget"])] [] [] [].

Definition abc : list scalar := [SStr "a"; SStr "b"; SStr "c"].

(** Partition files whose rows do not all have three fields. *)
Definition ragged_state : state :=
  mkState env
    [("/data/src/t/part-short", text_file ["p,q,r"; "t,u"]);
     ("/data/src/t/part-long-first", text_file ["p,q,r,s"]);
     ("/data/src/t/part-long-later", text_file ["p,q,r"; "t,u,v,w"])]
    [] [] [].

(** A schema whose entries are out of order and tie on a position. *)
Definition tied_schema : schema :=
  [("t", [column "late" 5; column "x" 1; column "early" 0; column "y" 1])].

End Example.

(** ** Further observations and example states *)

(** The error [main] raises for a missing base directory. *)
Definition missing_dirs : exn :=
  NameError "missing source or target base directory".


(** The files once [os.makedirs(dir, exist_ok=True)] has gone through. *)
Definition with_dir (dir : string) (files : filesystem) : filesystem :=
  match lookup dir files with
  | Some Dir => files
  | _ => files ++ [(dir, Dir)]
  end.

(** The pairs of schema values that [<] orders: two integers, or two
    strings. *)
Definition same_kind (a b : scalar) : bool :=
  match a, b with
  | SInt _, SInt _ => true
  | SStr _, SStr _ => true
  | _, _ => false
  end.

(** The value a column entry holds under a key. *)
Definition key_under (key : string) (col : column_entry) : scalar :=
  match lookup key col with
  | Some k => k
  | None => SNull
  end.

(** A schema whose positions are an integer and a string. *)
Definition mixed_schema : schema :=
  [("m", [[("column_name", SStr "a"); ("column_position", SInt 1)];
          [("column_name", SStr "b"); ("column_position", SStr "2")]])].


(** The characters [glob] reads as wildcards, and a path without any. *)
Definition is_wildcard (c : ascii) : bool :=
  Ascii.eqb c "*"%char || Ascii.eqb c "?"%char || Ascii.eqb c "["%char.

Definition literal (p : string) : bool :=
  negb (existsb is_wildcard (Str.chars p)).



(** A computation that leaves every state related by [R] to the state it
    started from. *)
Definition preserves (R : state -> state -> Prop) {A : Type} (m : M A)
  : Prop :=
  forall st, R st (snd (m st)).

(** The entries of the log that report a partition as failed. *)
Definition failed_reports (st : state) : list log_entry :=
  filter is_error_processing (log st).

(** Two states with the same such entries. *)
Definition same_reports (st st' : state) : Prop :=
  failed_reports st' = failed_reports st.










(** A run whose environment names no target root. *)
Definition no_target_state : state :=
  mkState [("SRC_BASE_DIR", "/data/src")] Example.two_files [] [] [].

(** A schema whose second column has no position, and one whose second
    column has no name. *)
Definition unplaced_schema : schema :=
  [("t", [Example.column "a" 0; [("column_name", SStr "b")]])].

Definition unnamed_schema : schema :=
  [("t", [Example.column "a" 1; [("column_position", SInt 0)]])].

(** A source root whose schema document is not JSON. *)
Definition unparsable_state : state :=
  mkState Example.env
    [("/data/src/schemas.json", File (mkFile ["{"] None));
     ("/data/src/sales/part-001", text_file ["a,Widget"])]
    [] [] [].

(* ================================================================== *)
(** * Properties *)
(* ================================================================== *)

Ltac unfold_m :=
  unfold try_except, bind, record_io, get_state, set_fs, emit, raise, ret,
         lift, environ_get, logged;
  cbn [fst snd environ fs denied log io is_IOError is_FileNotFoundError
       is_JSONDecodeError is_KeyError is_ParserError is_NameError].

Ltac case_io :=
  match goal with
  | |- context [match lookup ?k ?m with _ => _ end] =>
      destruct (lookup k m) as [[?|]|] eqn:?; unfold_m
  | |- context [if existsb ?f ?l then _ else _] =>
      destruct (existsb f l) eqn:?; unfold_m
  end.

(** ** Basic facts *)

Lemma lookup_store_same :
  forall (V : Type) (k : string) (v : V) (m : list (string * V)),
    lookup k (store k v m) = Some v.
Proof.
  intros V k v m. induction m as [|[k' v'] m IH]; simpl.
  - now rewrite String.eqb_refl.
  - destruct (String.eqb k k') eqn:E; simpl.
    + now rewrite String.eqb_refl.
    + now rewrite E.
Qed.

Lemma eqb_empty_false : forall s : string, s <> "" -> String.eqb s "" = false.
Proof. intros s H. apply String.eqb_neq. exact H. Qed.

Lemma chars_nonempty :
  forall s : string, s <> "" -> exists c cs, Str.chars s = c :: cs.
Proof.
  intros [|c s] H; [congruence|]. exists c, (Str.chars s). reflexivity.
Qed.

(** ** Loops *)

Lemma drain_next :
  forall (A : Type) (g : generator A) (st : state),
    drain g st =
    match next g st with
    | (Ok (Some (x, g')), st1) =>
        match drain g' st1 with
        | (Ok xs, st2) => (Ok (x :: xs), st2)
        | (Err e, st2) => (Err e, st2)
        end
    | (Ok None, st1) => (Ok [], st1)
    | (Err e, st1) => (Err e, st1)
    end.
Proof. intros A [resume] st. reflexivity. Qed.

Lemma for_each_next :
  forall (A : Type) (g : generator A) (body : A -> M unit) (st : state),
    for_each g body st =
    match next g st with
    | (Ok (Some (x, g')), st1) =>
        match body x st1 with
        | (Ok _, st2) => for_each g' body st2
        | (Err e, st2) => (Err e, st2)
        end
    | (Ok None, st1) => (Ok tt, st1)
    | (Err e, st1) => (Err e, st1)
    end.
Proof. intros A [resume] body st. reflexivity. Qed.


(** A failing body ends the loop over a list. *)
Lemma for_list_stops :
  forall (A : Type) (body : A -> M unit) x rest e st st',
    body x st = (Err e, st') ->
    for_list (x :: rest) body st = (Err e, st').
Proof. intros A body x rest e st st' H. cbn. unfold bind. now rewrite H. Qed.

(** ** The generator of [process_files] *)

Lemma next_yield_files :
  forall src table l st,
    next (Gen (yield_files src table l)) st =
    match l with
    | [] => (Ok None, st)
    | f :: rest =>
        (Ok (Some (f, Gen (yield_files src table rest))),
         logged st AppLogger INFO (FoundFile f src table))
    end.
Proof. intros src table [|f rest] st; reflexivity. Qed.

Lemma next_process_files :
  forall src table st,
    let search_dir := Glob.PartsIn (src ++ "/" ++ table) in
    let st1 :=
      mkState (environ st) (fs st) (denied st)
        (log st ++ [mkLog AppLogger INFO
                      (SearchDirCreated (Glob.pattern_text search_dir))])
        (io st ++ [IoGlob (Glob.pattern_text search_dir)]) in
    next (process_files src table) st =
    match Glob.glob_in (fs st) search_dir with
    | [] =>
        (Err (ValueError ""),
         logged st1 AppLogger ERROR
                (NoFileInSearchDir (Glob.pattern_text search_dir)))
    | f :: rest => next (Gen (yield_files src table (f :: rest))) st1
    end.
Proof.
  intros src table st. cbn zeta. unfold process_files, next, Glob.glob.
  unfold_m.
  destruct (Glob.glob_in (fs st) (Glob.PartsIn (src ++ "/" ++ table)));
    reflexivity.
Qed.

Lemma drain_yield_files :
  forall src table l st,
    exists st', drain (Gen (yield_files src table l)) st = (Ok l, st')
                /\ fs st' = fs st.
Proof.
  induction l as [|f l IH]; intros st; rewrite drain_next, next_yield_files.
  - exists st. split; reflexivity.
  - destruct (IH (logged st AppLogger INFO (FoundFile f src table)))
      as [st' [E F]].
    rewrite E. exists st'. split; [reflexivity | exact F].
Qed.

(** C10.  [process_files src table] is a generator: building it runs none
    of its body, so the call itself raises nothing.  When the directory
    holds no file matching [part-*], the first resumption runs the glob,
    logs and raises the [ValueError]; when it holds some, the generator
    yields exactly the matched paths and raises nothing. *)
Theorem process_files_raises_on_first_resume :
  forall (src table : string) (st : state),
    let g := process_files src table in
    let search_dir := Glob.PartsIn (src ++ "/" ++ table) in
    match Glob.glob_in (fs st) search_dir with
    | [] =>
        next g st =
        (Err (ValueError ""),
         mkState (environ st) (fs st) (denied st)
           ((log st ++
             [mkLog AppLogger INFO
                    (SearchDirCreated (Glob.pattern_text search_dir))]) ++
             [mkLog AppLogger ERROR
                    (NoFileInSearchDir (Glob.pattern_text search_dir))])
           (io st ++ [IoGlob (Glob.pattern_text search_dir)]))
    | found => fst (drain g st) = Ok found
    end.
Proof.
  intros src table st. cbn zeta.
  pose proof (next_process_files src table st) as N. cbn zeta in N.
  destruct (Glob.glob_in (fs st) (Glob.PartsIn (src ++ "/" ++ table)))
    as [|f l] eqn:E.
  - exact N.
  - rewrite drain_next, N, next_yield_files.
    match goal with |- context [drain _ ?s] =>
      destruct (drain_yield_files src table l s) as [st' [D _]] end.
    rewrite D. reflexivity.
Qed.

Example process_files_empty_directory :
  fst (next (process_files "/data/src" "returns") Example.two_state)
  = Err (ValueError "").
Proof. reflexivity. Qed.

Example process_files_two_partitions :
  fst (drain (process_files "/data/src" "sales") Example.two_state)
  = Ok ["/data/src/sales/part-001"; "/data/src/sales/part-002"].
Proof. reflexivity. Qed.

(** ** Where and how [to_json] writes *)

(** [to_json] either returns [True] after writing the lines to the bare
    file name derived from the partition, or logs the I/O error and raises
    it again.  It never returns [False]. *)
Lemma to_json_outcome :
  forall df tgt csv ds st,
    let r := to_json df tgt csv ds st in
    (fst r = Ok true /\
     lookup (json_file_name_of csv) (fs (snd r))
       = Some (text_file (Pandas.json_lines df)))
    \/ (exists e pre,
          fst r = Err e /\ is_IOError e = true /\
          log (snd r) = pre ++ [mkLog AppLogger ERROR (JsonIOError e)]).
Proof.
  intros df tgt csv ds st.
  unfold to_json, makedirs, Pandas.to_json. unfold_m.
  repeat case_io;
    try (left; split; [reflexivity | apply lookup_store_same]);
    right; eexists; eexists; (split; [reflexivity | split; [reflexivity |]]);
    reflexivity.
Qed.

(** C1 (the code evaluated at the failing input).  For target root
    [/data/tgt], dataset [sales] and partition [/data/src/sales/part-001],
    [to_json] creates the directory [/data/tgt/sales] but writes the lines
    to the bare file name [part-001.json], a path relative to the working
    directory; nothing is written at [/data/tgt/sales/part-001.json]. *)
Theorem to_json_writes_bare_file_name :
  let df := Pandas.mkDF [SStr "id"] [[Pandas.CInt 1]] in
  let r := to_json df "/data/tgt" "/data/src/sales/part-001" "sales"
                   Example.sales_state in
  fst r = Ok true /\
  OsPath.join (OsPath.join "/data/tgt" "sales") "part-001.json"
    = "/data/tgt/sales/part-001.json" /\
  lookup "/data/tgt/sales" (fs (snd r)) = Some Dir /\
  lookup "/data/tgt/sales/part-001.json" (fs (snd r)) = None /\
  lookup "part-001.json" (fs (snd r))
    = Some (text_file [JsonText.object [JsonText.member "id" "1"]]).
Proof. vm_compute. repeat split; reflexivity. Qed.

(** The path written depends on the partition file only: neither the
    target root nor the dataset name takes part in it. *)
Lemma to_json_path_ignores_target :
  forall df tgt ds csv st,
    fst (to_json df tgt csv ds st) = Ok true ->
    lookup (json_file_name_of csv) (fs (snd (to_json df tgt csv ds st)))
    = Some (text_file (Pandas.json_lines df)).
Proof.
  intros df tgt ds csv st H.
  destruct (to_json_outcome df tgt csv ds st) as [[_ L] | [e [pre [E _]]]].
  - exact L.
  - rewrite E in H. discriminate.
Qed.





(** ** The datasets of a run *)



(** The first character is looked up as a dataset, and is not one. *)
Example main_on_string_fails_on_first_character :
  fst (main (DsStr "sales") Example.two_state) = Err (KeyError "s").
Proof. vm_compute. reflexivity. Qed.

(** [main] on a non-empty list of names. *)
Lemma main_on_list :
  forall names st,
    names <> [] ->
    main (DsList names) st =
    match base_dirs st with
    | (Ok (src, tgt), st1) =>
        match for_list names (convert_file src tgt)
                (logged st1 AppLogger INFO (RunWithArguments (DsList names)))
        with
        | (Ok u, st2) => (Ok u, st2)
        | (Err e, st2) =>
            (Err e, logged st2 AppLogger CRITICAL (UnhandledException e))
        end
    | (Err e, st1) => (Err e, st1)
    end.
Proof.
  intros [|x rest] st Hne; [congruence|].
  unfold main, dataset_names. cbn [falsy_arg iterate].
  unfold bind, try_except, emit, ret, lift, raise.
  destruct (base_dirs st) as [[[src tgt]|e] st1]; reflexivity.
Qed.

(** ** A missing schema document *)

Lemma convert_file_without_schema :
  forall src tgt ds st,
    lookup (OsPath.join src "schemas.json") (fs st) = None ->
    exists st',
      convert_file src tgt ds st =
        (Err (FileNotFoundError (Errno2 (OsPath.join src "schemas.json"))), st')
      /\ fs st' = fs st.
Proof.
  intros src tgt ds st Hn.
  unfold convert_file, read_schema, load_json. unfold_m. rewrite Hn.
  unfold_m. eexists. split; reflexivity.
Qed.

(** C7 (amended).  With both base directories configured and no
    [schemas.json] under the source root, no file is written in any case.
    The run ends with the [FileNotFoundError] of the schema document
    whenever a dataset is named or discovered; when none is named and the
    scan finds none, it ends before the schema is looked for, with the
    [FileNotFoundError] that [main] raises for the empty scan. *)
Theorem missing_schema_aborts_before_any_write :
  forall (arg : ds_arg) (src tgt : string) (st : state),
    lookup "SRC_BASE_DIR" (environ st) = Some src -> src <> "" ->
    lookup "TGT_BASE_DIR" (environ st) = Some tgt -> tgt <> "" ->
    lookup (OsPath.join src "schemas.json") (fs st) = None ->
    let r := main arg st in
    fs (snd r) = fs st /\
    match falsy_arg arg, Glob.glob_in (fs st) (Glob.PartsBelow src) with
    | true, [] =>
        fst r = Err (FileNotFoundError (Message (no_file_message src)))
    | _, _ =>
        fst r = Err (FileNotFoundError (Errno2 (OsPath.join src "schemas.json")))
    end.
Proof.
  intros arg src tgt st Hs Hs' Ht Ht' Hn. cbn zeta.
  assert (tail : forall names st1,
             names <> [] -> fs st1 = fs st ->
             exists st2,
               for_list names (convert_file src tgt) st1 =
                 (Err (FileNotFoundError
                         (Errno2 (OsPath.join src "schemas.json"))), st2)
               /\ fs st2 = fs st).
  { intros [|x rest] st1 Hne Hfs; [congruence|].
    destruct (convert_file_without_schema src tgt x st1) as [st2 [E F]].
    - now rewrite Hfs.
    - exists st2. split; [| congruence].
      apply for_list_stops. exact E. }
  unfold main, base_dirs. unfold_m. rewrite Hs, Ht.
  unfold falsy_str. rewrite (eqb_empty_false src Hs'), (eqb_empty_false tgt Ht').
  cbn [orb]. unfold dataset_names.
  destruct (falsy_arg arg) eqn:Fa.
  - unfold Glob.glob. unfold_m.
    destruct (Glob.glob_in (fs st) (Glob.PartsBelow src)) as [|p l] eqn:G.
    + unfold_m. split; reflexivity.
    + cbn [iterate].
      match goal with |- context [for_list ?n _ ?s] =>
        destruct (tail n s) as [st2 [E F]];
        [cbn [map]; discriminate | reflexivity |] end.
      rewrite E. unfold_m. split; [exact F | reflexivity].
  - unfold_m.
    assert (exists names, iterate arg = Ok names /\ names <> [])
      as [names [I Hne]].
    { destruct arg as [|s|[|x l]]; cbn in Fa; try discriminate.
      - apply String.eqb_neq in Fa.
        destruct (chars_nonempty s Fa) as [c [cs E]].
        eexists. split; [reflexivity|]. rewrite E. cbn. discriminate.
      - eexists. split; [reflexivity | discriminate]. }
    rewrite I.
    match goal with |- context [for_list ?n _ ?s] =>
      destruct (tail n s) as [st2 [E F]]; [exact Hne | reflexivity |] end.
    rewrite E. unfold_m. split; [exact F | reflexivity].
Qed.

Lemma missing_schema_witness :
  fs (snd (main DsNone Example.schemaless_state))
    = fs Example.schemaless_state /\
  fst (main DsNone Example.schemaless_state)
    = Err (FileNotFoundError (Errno2 "/data/src/schemas.json")).
Proof.
  apply (missing_schema_aborts_before_any_write
           DsNone "/data/src" "/data/tgt" Example.schemaless_state);
    first [reflexivity | discriminate].
Defined.

(** C7 (counterexample).  A source root with neither a schema document
    nor a dataset, and no dataset named: the run ends with the error of the
    empty scan, which is not the error of opening [schemas.json]; the schema
    document is never looked for. *)
Lemma missing_schema_with_no_dataset :
  let r := main DsNone Example.empty_state in
  lookup "/data/src/schemas.json" (fs Example.empty_state) = None /\
  fst r = Err (FileNotFoundError (Message (no_file_message "/data/src"))) /\
  fst r <> Err (FileNotFoundError (Errno2 "/data/src/schemas.json")) /\
  schema_loads (snd r) = 0 /\
  fs (snd r) = [].
Proof.
  cbn zeta. repeat split; try (vm_compute; reflexivity).
  vm_compute. discriminate.
Qed.

(** ** The end-to-end scenario *)

(** C2 (amended).  On the scenario's input, with no dataset argument, the
    run discovers [sales], resolves the columns to [id, name, price] and
    writes a JSON-Lines file named [part-001.json] of two lines, in which
    the reader's type inference shows: [id] and [price] are JSON numbers,
    [name] is a JSON string. *)
Theorem end_to_end_scenario :
  let r := main DsNone Example.sales_state in
  fst r = Ok tt /\
  fst (dataset_names "/data/src" DsNone Example.sales_state)
    = Ok (DsList ["sales"]) /\
  fst (get_column_names Example.sales_schema "sales" default_sorting_key
                        Example.sales_state)
    = Ok [SStr "id"; SStr "name"; SStr "price"] /\
  exists p,
    OsPath.basename p = "part-001.json" /\
    lookup p (fs (snd r)) = Some (text_file Example.written_lines).
Proof.
  cbn zeta. repeat split; try (vm_compute; reflexivity).
  exists "part-001.json". split; vm_compute; reflexivity.
Qed.

(** C2 (counterexample).  After that run the file [part-001.json] holds
    the numbers unquoted, and no file of the file system, at the claimed
    path or elsewhere, holds the two lines with every value quoted. *)
Lemma end_to_end_values_are_not_all_strings :
  let r := main DsNone Example.sales_state in
  fst r = Ok tt /\
  (exists p,
      OsPath.basename p = "part-001.json" /\
      lookup p (fs (snd r)) = Some (text_file Example.written_lines)) /\
  Example.written_lines <> Example.claimed_lines /\
  forall p f, lookup p (fs (snd r)) = Some (File f) ->
              file_lines f <> Example.claimed_lines.
Proof.
  cbn zeta. split; [vm_compute; reflexivity|].
  split; [exists "part-001.json"; split; vm_compute; reflexivity|].
  split; [vm_compute; discriminate|].
  intros p f.
  replace (fs (snd (main DsNone Example.sales_state))) with
    [("/data/src/schemas.json", Example.schema_file Example.sales_schema);
     ("/data/src/sales/part-001",
      text_file ["1,Widget,9.99"; "2,Gadget,19.99"]);
     ("/data/tgt/sales", Dir);
     ("part-001.json", text_file Example.written_lines)]
    by (vm_compute; reflexivity).
  cbn [lookup].
  repeat match goal with
         | |- context [String.eqb p ?k] => destruct (String.eqb p k)
         end;
    intros H; try discriminate H; injection H as <-; vm_compute; discriminate.
Qed.

(** ** How often the schema document is loaded *)

Lemma schema_loads_io :
  forall st ev en f d l,
    schema_loads (mkState en f d l (io st ++ [ev])) =
    schema_loads st + (if is_load ev then 1 else 0).
Proof.
  intros. unfold schema_loads. cbn [io].
  rewrite filter_app, length_app. cbn. destruct (is_load ev); reflexivity.
Qed.

Lemma quiet_ret : forall A (a : A), quiet (ret a).
Proof. intros A a st. reflexivity. Qed.

Lemma quiet_raise : forall A e, quiet (@raise A e).
Proof. intros A e st. reflexivity. Qed.

Lemma quiet_lift : forall A (o : outcome A), quiet (lift o).
Proof. intros A o st. reflexivity. Qed.

Lemma quiet_emit : forall who lv m, quiet (emit who lv m).
Proof. intros who lv m st. reflexivity. Qed.

Lemma quiet_get_state : quiet get_state.
Proof. intros st. reflexivity. Qed.

Lemma quiet_environ_get : forall name, quiet (environ_get name).
Proof. intros name st. reflexivity. Qed.

Lemma quiet_set_fs : forall f, quiet (set_fs f).
Proof. intros f st. reflexivity. Qed.

Lemma quiet_record_io : forall ev, is_load ev = false -> quiet (record_io ev).
Proof.
  intros ev H st. unfold record_io. cbn [snd].
  rewrite schema_loads_io, H. lia.
Qed.

Lemma quiet_bind :
  forall A B (m : M A) (k : A -> M B),
    quiet m -> (forall a, quiet (k a)) -> quiet (bind m k).
Proof.
  intros A B m k Hm Hk st. unfold bind.
  specialize (Hm st). destruct (m st) as [[a|e] st1]; cbn [snd] in *.
  - rewrite Hk. exact Hm.
  - exact Hm.
Qed.

Lemma quiet_try :
  forall A (m : M A) (h : exn -> M A),
    quiet m -> (forall e, quiet (h e)) -> quiet (try_except m h).
Proof.
  intros A m h Hm Hh st. unfold try_except.
  specialize (Hm st). destruct (m st) as [[a|e] st1]; cbn [snd] in *.
  - exact Hm.
  - rewrite Hh. exact Hm.
Qed.

Ltac quiet_step :=
  first
    [ apply quiet_bind; [| intros ?]
    | apply quiet_try; [| intros ?]
    | apply quiet_ret | apply quiet_raise | apply quiet_lift
    | apply quiet_emit | apply quiet_get_state | apply quiet_set_fs
    | apply quiet_environ_get
    | apply quiet_record_io; reflexivity
    | match goal with
      | |- quiet (if ?b then _ else _) => destruct b
      | |- quiet (match ?x with _ => _ end) => destruct x
      end ].

Lemma quiet_get_column_names :
  forall sch table key, quiet (get_column_names sch table key).
Proof. intros. unfold get_column_names. repeat quiet_step. Qed.

Lemma quiet_read_csv : forall p names, quiet (read_csv p names).
Proof. intros. unfold read_csv, Pandas.read_csv. repeat quiet_step. Qed.

Lemma quiet_to_json : forall df tgt csv ds, quiet (to_json df tgt csv ds).
Proof.
  intros. unfold to_json, makedirs, Pandas.to_json. repeat quiet_step.
Qed.

Lemma quiet_convert_partition :
  forall tgt ds col csv, quiet (convert_partition tgt ds col csv).
Proof.
  intros. unfold convert_partition.
  apply quiet_bind; [apply quiet_read_csv | intros df].
  apply quiet_bind; [apply quiet_to_json | intros b].
  destruct b; apply quiet_emit.
Qed.

Lemma quiet_base_dirs : quiet base_dirs.
Proof. unfold base_dirs. repeat quiet_step. Qed.

Lemma quiet_for_each_files :
  forall src table body l,
    (forall x, quiet (body x)) ->
    quiet (for_each (Gen (yield_files src table l)) body).
Proof.
  intros src table body l Hb. induction l as [|f l IH]; intros st;
    rewrite for_each_next, next_yield_files.
  - reflexivity.
  - specialize (Hb f (logged st AppLogger INFO (FoundFile f src table))).
    destruct (body f _) as [[u|e] st2]; cbn [snd] in *.
    + rewrite IH. exact Hb.
    + exact Hb.
Qed.

Lemma quiet_for_each_process_files :
  forall src table body,
    (forall x, quiet (body x)) ->
    quiet (for_each (process_files src table) body).
Proof.
  intros src table body Hb st.
  rewrite for_each_next, next_process_files. cbn zeta.
  destruct (Glob.glob_in (fs st) (Glob.PartsIn (src ++ "/" ++ table)))
    as [|f l].
  - cbn [snd]. unfold logged. cbn [environ fs denied log io].
    rewrite schema_loads_io. cbn. lia.
  - rewrite <- for_each_next.
    rewrite (quiet_for_each_files src table body (f :: l) Hb).
    rewrite schema_loads_io. cbn. lia.
Qed.

Lemma read_schema_loads_once :
  forall src st,
    schema_loads (snd (read_schema src st)) = S (schema_loads st).
Proof.
  intros src st. unfold read_schema, load_json. unfold_m.
  destruct (lookup (OsPath.join src "schemas.json") (fs st)) as [[f|]|];
    [destruct (file_json f) | | ]; unfold_m;
    rewrite schema_loads_io; cbn; lia.
Qed.

(** Every call of [convert_file] loads the schema document, once. *)
Lemma convert_file_loads_once :
  forall src tgt ds st,
    schema_loads (snd (convert_file src tgt ds st)) = S (schema_loads st).
Proof.
  intros src tgt ds st. unfold convert_file.
  unfold try_except at 1. unfold bind at 1.
  pose proof (read_schema_loads_once src st) as R.
  destruct (read_schema src st) as [[sch|e] st1]; cbn [snd] in R.
  - unfold bind at 1.
    pose proof (quiet_get_column_names sch ds default_sorting_key st1) as C.
    destruct (get_column_names sch ds default_sorting_key st1)
      as [[col|e] st2]; cbn [snd] in C.
    + pose proof (quiet_for_each_process_files src ds
                   (convert_partition tgt ds col)
                   (quiet_convert_partition tgt ds col) st2) as F.
      destruct (for_each _ _ st2) as [[u|e] st3]; cbn [snd] in F.
      * cbn [snd]. congruence.
      * unfold_m. unfold schema_loads in *. cbn [io] in *. congruence.
    + unfold_m. unfold schema_loads in *. cbn [io] in *. congruence.
  - unfold_m. unfold schema_loads in *. cbn [io] in *. congruence.
Qed.

Lemma for_list_convert_loads :
  forall src tgt names st,
    fst (for_list names (convert_file src tgt) st) = Ok tt ->
    schema_loads (snd (for_list names (convert_file src tgt) st))
      = schema_loads st + List.length names.
Proof.
  intros src tgt names. induction names as [|x rest IH]; intros st H.
  - cbn. lia.
  - cbn [for_list] in *. unfold bind in *.
    pose proof (convert_file_loads_once src tgt x st) as C.
    destruct (convert_file src tgt x st) as [[u|e] st1]; cbn [snd fst] in *.
    + rewrite (IH st1 H). cbn [List.length]. lia.
    + discriminate.
Qed.

(** C6 (amended).  The schema document is loaded by [convert_file], that
    is once per dataset processed and not once per run: a run that
    completes over a list of [n] dataset names has loaded it [n] times. *)
Theorem schema_loaded_once_per_dataset :
  forall (names : list string) (st : state),
    names <> [] ->
    fst (main (DsList names) st) = Ok tt ->
    schema_loads (snd (main (DsList names) st))
      = schema_loads st + List.length names.
Proof.
  intros names st Hne. rewrite (main_on_list names st Hne).
  pose proof (quiet_base_dirs st) as B.
  destruct (base_dirs st) as [[[src tgt]|e] st1]; cbn [snd fst] in *;
    [| discriminate].
  pose proof (for_list_convert_loads src tgt names
               (logged st1 AppLogger INFO (RunWithArguments (DsList names))))
    as F.
  destruct (for_list names (convert_file src tgt) _) as [[u|e] st2];
    cbn [fst snd] in *; [| discriminate].
  intros _. specialize (F ltac:(destruct u; reflexivity)).
  rewrite F. unfold schema_loads, logged in *. cbn [io] in *. lia.
Qed.

Lemma schema_loaded_three_times :
  schema_loads
    (snd (main (DsList ["sales"; "stock"; "sales"]) Example.two_state))
  = schema_loads Example.two_state + 3.
Proof.
  apply (schema_loaded_once_per_dataset
           ["sales"; "stock"; "sales"] Example.two_state).
  - discriminate.
  - vm_compute. reflexivity.
Defined.

(** C6 (counterexample).  A run over the two datasets [sales] and [stock]
    completes and has loaded [schemas.json] twice. *)
Lemma schema_loaded_twice_in_one_run :
  let r := main (DsList ["sales"; "stock"]) Example.two_state in
  fst r = Ok tt /\
  schema_loads Example.two_state = 0 /\
  schema_loads (snd r) = 2 /\
  filter is_load (io (snd r))
    = [IoLoadJson "/data/src/schemas.json";
       IoLoadJson "/data/src/schemas.json"].
Proof. cbn zeta. repeat split; vm_compute; reflexivity. Qed.

(** ** Dataset discovery *)

Module PathFacts.
Import Str.

Lemma chars_append :
  forall a b : string, chars (a ++ b) = chars a ++ chars b.
Proof.
  induction a as [|c a IH]; intros b; cbn.
  - reflexivity.
  - f_equal. apply IH.
Qed.

Lemma chars_of_chars : forall l, chars (of_chars l) = l.
Proof. exact list_ascii_of_string_of_list_ascii. Qed.

Lemma of_chars_chars : forall s, of_chars (chars s) = s.
Proof. exact string_of_list_ascii_of_string. Qed.

Lemma is_slash_true : forall c, is_slash c = true <-> c = slash.
Proof. intros c. unfold is_slash. apply Ascii.eqb_eq. Qed.

Lemma is_slash_slash : is_slash slash = true.
Proof. reflexivity. Qed.

Lemma strip_prefix_app :
  forall a b s,
    strip_prefix (a ++ b) s =
    match strip_prefix a s with
    | Some r => strip_prefix b r
    | None => None
    end.
Proof.
  induction a as [|c a IH]; intros b s; cbn.
  - destruct b; reflexivity.
  - destruct s as [|c' s]; [reflexivity|].
    destruct (Ascii.eqb c c'); [apply IH | reflexivity].
Qed.

Lemma strip_prefix_Some :
  forall p s r, strip_prefix p s = Some r <-> s = p ++ r.
Proof.
  induction p as [|c p IH]; intros s r; cbn.
  - split; [intros [= ->]; reflexivity | intros ->; reflexivity].
  - destruct s as [|c' s].
    + split; discriminate.
    + destruct (Ascii.eqb c c') eqn:E.
      * apply Ascii.eqb_eq in E. subst c'. rewrite IH.
        split; [intros ->; reflexivity | intros [= ->]; reflexivity].
      * apply Ascii.eqb_neq in E.
        split; [discriminate | intros [= ? ?]; congruence].
Qed.

Lemma split_first_slash_intro :
  forall d f,
    existsb is_slash d = false ->
    split_first_slash (d ++ slash :: f) = Some (d, f).
Proof.
  induction d as [|c d IH]; intros f Hd; cbn [app split_first_slash].
  - now rewrite is_slash_slash.
  - cbn in Hd. apply orb_false_iff in Hd as [Hc Hd].
    rewrite Hc, IH by exact Hd. reflexivity.
Qed.

Lemma split_first_slash_elim :
  forall s d f,
    split_first_slash s = Some (d, f) ->
    s = d ++ slash :: f /\ existsb is_slash d = false.
Proof.
  induction s as [|c s IH]; intros d f H; cbn in H; [discriminate|].
  destruct (is_slash c) eqn:E.
  - apply is_slash_true in E. subst c. injection H as <- <-.
    split; reflexivity.
  - destruct (split_first_slash s) as [[a b]|]; [| discriminate].
    injection H as <- <-. destruct (IH a b eq_refl) as [-> Ha].
    split; [reflexivity|]. cbn. now rewrite E, Ha.
Qed.

Lemma after_last_slash_app :
  forall x f,
    existsb is_slash f = false ->
    after_last_slash (x ++ slash :: f) = f.
Proof.
  induction x as [|c x IH]; intros f Hf.
  - cbn [app after_last_slash existsb]. rewrite is_slash_slash, Hf.
    reflexivity.
  - cbn [app after_last_slash].
    assert (E : existsb is_slash (x ++ slash :: f) = true).
    { rewrite existsb_app. cbn [existsb]. rewrite is_slash_slash.
      apply orb_true_r. }
    cbn [existsb]. rewrite E, orb_true_r. apply IH. exact Hf.
Qed.

Lemma upto_last_slash_app :
  forall x f,
    existsb is_slash f = false ->
    upto_last_slash (x ++ slash :: f) = x ++ [slash].
Proof.
  induction x as [|c x IH]; intros f Hf.
  - cbn [app upto_last_slash existsb]. rewrite is_slash_slash, Hf.
    reflexivity.
  - cbn [app upto_last_slash].
    assert (E : existsb is_slash (x ++ slash :: f) = true).
    { rewrite existsb_app. cbn [existsb]. rewrite is_slash_slash.
      apply orb_true_r. }
    cbn [existsb]. rewrite E, orb_true_r. f_equal. apply IH. exact Hf.
Qed.

Lemma rstrip_slash_snoc_slash :
  forall x, rstrip_slash (x ++ [slash]) = rstrip_slash x.
Proof.
  induction x as [|c x IH]; cbn [app rstrip_slash].
  - rewrite is_slash_slash. reflexivity.
  - rewrite IH. reflexivity.
Qed.

Lemma rstrip_slash_ends_plain :
  forall x c, is_slash c = false -> rstrip_slash (x ++ [c]) = x ++ [c].
Proof.
  induction x as [|c' x IH]; intros c Hc; cbn.
  - now rewrite Hc.
  - rewrite IH by exact Hc. destruct (x ++ [c]) eqn:E; [|reflexivity].
    destruct x; discriminate.
Qed.

(** The parent directory name of a path [root/d/f]. *)
Lemma parent_name :
  forall root d f,
    d <> [] ->
    existsb is_slash d = false ->
    existsb is_slash f = false ->
    OsPath.basename
      (fst (OsPath.split (of_chars (root ++ slash :: d ++ slash :: f))))
    = of_chars d.
Proof.
  intros root d f Hne Hd Hf.
  unfold OsPath.split, OsPath.basename. cbn [fst].
  rewrite !chars_of_chars.
  replace (root ++ slash :: d ++ slash :: f)
    with ((root ++ slash :: d) ++ slash :: f)
    by (rewrite <- app_assoc; reflexivity).
  rewrite upto_last_slash_app by exact Hf.
  destruct (exists_last Hne) as [d' [c E]].
  assert (Hc : is_slash c = false).
  { rewrite E, existsb_app in Hd. cbn [existsb] in Hd.
    apply orb_false_iff in Hd as [_ Hd]. now rewrite orb_false_r in Hd. }
  assert (Hall : forallb is_slash ((root ++ slash :: d) ++ [slash]) = false).
  { rewrite E. rewrite !forallb_app. cbn [forallb]. rewrite !forallb_app.
    cbn [forallb]. rewrite Hc. cbn [andb].
    rewrite !andb_false_r. reflexivity. }
  rewrite Hall, rstrip_slash_snoc_slash.
  replace (root ++ slash :: d) with ((root ++ slash :: d') ++ [c])
    by (rewrite E, <- app_assoc; reflexivity).
  rewrite rstrip_slash_ends_plain by exact Hc.
  replace ((root ++ slash :: d') ++ [c]) with (root ++ slash :: d)
    by (rewrite E, <- app_assoc; reflexivity).
  now rewrite after_last_slash_app by exact Hd.
Qed.

Lemma is_part_name_no_slash :
  forall f, Glob.is_part_name f = true -> existsb is_slash f = false.
Proof.
  intros f H. unfold Glob.is_part_name in H.
  apply andb_true_iff in H as [_ H]. now apply negb_true_iff in H.
Qed.

Lemma app_slash_inj :
  forall d d' f f',
    existsb is_slash d = false -> existsb is_slash d' = false ->
    d ++ slash :: f = d' ++ slash :: f' -> d = d' /\ f = f'.
Proof.
  induction d as [|c d IH]; intros [|c' d'] f f' Hd Hd' E;
    cbn [app existsb] in *.
  - injection E as ->. split; reflexivity.
  - injection E as <- _. rewrite is_slash_slash in Hd'. discriminate.
  - injection E as -> _. rewrite is_slash_slash in Hd. discriminate.
  - injection E as <- E. apply orb_false_iff in Hd as [_ Hd].
    apply orb_false_iff in Hd' as [_ Hd'].
    destruct (IH d' f f' Hd Hd' E) as [-> ->]. split; reflexivity.
Qed.

End PathFacts.

(** The files of one dataset directory are the files of the scan whose
    parent directory has the dataset's name. *)
Lemma matches_dataset :
  forall src d p,
    plain_name d ->
    Glob.matches (Glob.PartsIn (src ++ "/" ++ d)) p =
    Glob.matches (Glob.PartsBelow src) p
    && String.eqb (OsPath.basename (fst (OsPath.split p))) d.
Proof.
  intros src d p [Hstar Hd]. unfold Glob.matches.
  rewrite !PathFacts.chars_append.
  change (Str.chars "/") with [Str.slash].
  replace ((Str.chars src ++ [Str.slash] ++ Str.chars d) ++ [Str.slash])
    with ((Str.chars src ++ [Str.slash]) ++ (Str.chars d ++ [Str.slash]))
    by (rewrite <- !app_assoc; reflexivity).
  rewrite PathFacts.strip_prefix_app.
  destruct (Str.strip_prefix (Str.chars src ++ [Str.slash]) (Str.chars p))
    as [rest|] eqn:E; [| reflexivity].
  apply PathFacts.strip_prefix_Some in E.
  destruct (Str.split_first_slash rest) as [[d' f]|] eqn:S.
  - apply PathFacts.split_first_slash_elim in S as [-> Hd'].
    destruct (Str.strip_prefix (Str.chars d ++ [Str.slash])
                               (d' ++ Str.slash :: f)) as [f'|] eqn:P.
    + apply PathFacts.strip_prefix_Some in P.
      rewrite <- app_assoc in P. cbn in P.
      destruct (PathFacts.app_slash_inj d' (Str.chars d) f f' Hd' Hd P)
        as [-> ->].
      rewrite Hstar. cbn [andb].
      destruct (Glob.is_part_name f') eqn:Pn; [| reflexivity].
      cbn [andb]. symmetry. apply String.eqb_eq.
      rewrite <- (PathFacts.of_chars_chars p), E, <- app_assoc. cbn [app].
      rewrite PathFacts.parent_name.
      * apply PathFacts.of_chars_chars.
      * intros Z. rewrite Z in Hstar. discriminate.
      * exact Hd.
      * now apply PathFacts.is_part_name_no_slash.
    + destruct (Glob.is_part_name f) eqn:Pn; [| now rewrite andb_false_r].
      destruct (Glob.is_star_name d') eqn:Sn; [| reflexivity].
      cbn [andb]. symmetry. apply String.eqb_neq. intros Q.
      rewrite <- (PathFacts.of_chars_chars p), E, <- app_assoc in Q.
      cbn [app] in Q.
      rewrite PathFacts.parent_name in Q.
      * assert (d' = Str.chars d) as ->
            by (rewrite <- Q; now rewrite PathFacts.chars_of_chars).
        assert (Str.strip_prefix (Str.chars d ++ [Str.slash])
                                 (Str.chars d ++ Str.slash :: f)
                = Some f) as C.
        { apply PathFacts.strip_prefix_Some. rewrite <- app_assoc.
          reflexivity. }
        congruence.
      * intros Z. rewrite Z in Sn. discriminate.
      * exact Hd'.
      * now apply PathFacts.is_part_name_no_slash.
  - destruct (Str.strip_prefix (Str.chars d ++ [Str.slash]) rest)
      as [f'|] eqn:P; [| reflexivity].
    apply PathFacts.strip_prefix_Some in P.
    rewrite <- app_assoc in P. cbn in P.
    assert (Str.split_first_slash rest = Some (Str.chars d, f')) as C
      by (rewrite P; now apply PathFacts.split_first_slash_intro).
    congruence.
Qed.








(** ** Column resolution *)

Lemma insert_keyed_stable :
  forall (A : Type) (x : scalar * A) (l : list (scalar * A)),
    int_keyed x -> Forall int_keyed l -> StronglySorted key_le l ->
    exists r,
      insert_keyed x l = Ok r /\
      Permutation (x :: l) r /\
      StronglySorted key_le r /\
      forall p, filter (key_is p) r = filter (key_is p) (x :: l).
Proof.
  intros A x l [kx Hx]. induction l as [|y l IH]; intros Hl Hs.
  - exists [x]. repeat split; auto. constructor; constructor.
  - inversion Hl as [|? ? [ky Hy] Hl']; subst.
    inversion Hs as [|? ? Hs' Hall]; subst.
    cbn [insert_keyed]. rewrite Hy, Hx. cbn [py_lt].
    destruct (ky <? kx)%Z eqn:C.
    + destruct (IH Hl' Hs') as [r [E [P [S F]]]]. rewrite E.
      exists (y :: r). split; [reflexivity|]. split; [|split].
      * rewrite perm_swap. now constructor.
      * constructor; [exact S|].
        apply (Permutation_Forall P). constructor; [| exact Hall].
        unfold key_le. rewrite Hy, Hx. cbn. lia.
      * intros p. cbn [filter]. rewrite F. cbn [filter].
        assert (key_is p x = (kx =? p)%Z) as ->
            by (unfold key_is; now rewrite Hx).
        assert (key_is p y = (ky =? p)%Z) as ->
            by (unfold key_is; now rewrite Hy).
        destruct (ky =? p)%Z eqn:E1, (kx =? p)%Z eqn:E2; try reflexivity.
        lia.
    + exists (x :: y :: l). repeat split; auto.
      constructor; [exact Hs|].
      assert (key_le x y) as Hxy by (unfold key_le; rewrite Hy, Hx; cbn; lia).
      constructor; [exact Hxy|].
      eapply Forall_impl; [| exact Hall].
      intros a Ha. unfold key_le in *. lia.
Qed.

Lemma sort_keyed_stable :
  forall (A : Type) (l : list (scalar * A)),
    Forall int_keyed l ->
    exists r,
      sort_keyed l = Ok r /\
      Permutation l r /\
      StronglySorted key_le r /\
      forall p, filter (key_is p) r = filter (key_is p) l.
Proof.
  intros A. induction l as [|x l IH]; intros Hl.
  - exists []. repeat split; auto. constructor.
  - inversion Hl as [|? ? Hx Hl']; subst.
    destruct (IH Hl') as [s [E [P [S F]]]].
    cbn [sort_keyed]. rewrite E.
    destruct (insert_keyed_stable A x s Hx (Permutation_Forall P Hl') S)
      as [r [E' [P' [S' F']]]].
    exists r. split; [exact E'|]. split; [|split].
    + rewrite <- P'. now constructor.
    + exact S'.
    + intros p. rewrite F'. cbn [filter]. now rewrite F.
Qed.

Lemma map_outcome_total :
  forall (A B : Type) (f : A -> outcome B) (g : A -> B) l,
    Forall (fun x => f x = Ok (g x)) l ->
    map_outcome f l = Ok (map g l).
Proof.
  intros A B f g l H. induction H as [|x l Hx _ IH]; cbn.
  - reflexivity.
  - now rewrite Hx, IH.
Qed.

Lemma filter_map_snd :
  forall (A : Type) (pos : A -> Z) (p : Z) (l : list (scalar * A)),
    Forall (fun e => fst e = SInt (pos (snd e))) l ->
    filter (fun x => Z.eqb (pos x) p) (map snd l)
    = map snd (filter (key_is p) l).
Proof.
  intros A pos p l H. induction H as [|e l He _ IH]; cbn; [reflexivity|].
  unfold key_is at 1. rewrite He. cbn [key_int].
  destruct (pos (snd e) =? p)%Z; cbn; now rewrite IH.
Qed.

Lemma sorted_map_snd :
  forall (A : Type) (pos : A -> Z) (l : list (scalar * A)),
    Forall (fun e => fst e = SInt (pos (snd e))) l ->
    StronglySorted key_le l ->
    StronglySorted Z.le (map pos (map snd l)).
Proof.
  intros A pos l H S. induction S as [|e l S IH Hall]; cbn.
  - constructor.
  - inversion H as [|? ? He Hl]; subst. constructor; [now apply IH|].
    rewrite Forall_map, Forall_map.
    rewrite Forall_forall in Hall, Hl |- *. intros e' Hin.
    specialize (Hall e' Hin). specialize (Hl e' Hin).
    unfold key_le in Hall. rewrite He, Hl in Hall. exact Hall.
Qed.

(** [sorted] on elements whose key is an integer: the result is the stable
    sort by that integer. *)
Lemma sorted_by_position :
  forall (A : Type) (key : A -> outcome scalar) (pos : A -> Z) (l : list A),
    Forall (fun x => key x = Ok (SInt (pos x))) l ->
    exists s,
      sorted l key = Ok s /\
      Permutation l s /\
      StronglySorted Z.le (map pos s) /\
      forall p, filter (fun x => Z.eqb (pos x) p) s
                = filter (fun x => Z.eqb (pos x) p) l.
Proof.
  intros A key pos l H. unfold sorted.
  rewrite (map_outcome_total _ _ _ (fun x => (SInt (pos x), x)) l).
  2:{ eapply Forall_impl; [| exact H]. cbn. intros x ->. reflexivity. }
  set (keyed := map (fun x => (SInt (pos x), x)) l).
  assert (Hk : Forall (fun e : scalar * A => fst e = SInt (pos (snd e))) keyed).
  { unfold keyed. rewrite Forall_map. apply Forall_forall. reflexivity. }
  assert (Hi : Forall (@int_keyed A) keyed).
  { eapply Forall_impl; [| exact Hk]. intros e He. now exists (pos (snd e)). }
  assert (Hsnd : map snd keyed = l).
  { unfold keyed. rewrite map_map. cbn. apply map_id. }
  destruct (sort_keyed_stable A keyed Hi) as [r [E [P [S F]]]]. rewrite E.
  pose proof (Permutation_Forall P Hk) as Hr.
  exists (map snd r). split; [reflexivity|]. split; [|split].
  - rewrite <- Hsnd. now apply Permutation_map.
  - now apply sorted_map_snd.
  - intros p. rewrite (filter_map_snd A pos p r Hr), F.
    rewrite <- (filter_map_snd A pos p keyed Hk), Hsnd. reflexivity.
Qed.

Lemma lookup_getitem :
  forall (V : Type) (d : list (string * V)) k v,
    lookup k d = Some v -> getitem d k = Ok v.
Proof. intros V d k v H. unfold getitem. now rewrite H. Qed.

(** C8.  For a dataset present in the schema whose entries all hold an
    integer under the sort key and hold a name, [get_column_names] returns
    the names of the entries stably sorted by the key: as many names as
    entries, taken from a permutation of the entries that is
    non-decreasing in the key and keeps, for every key value, the entries
    of that value in their schema order. *)
Theorem column_names_are_stably_sorted :
  forall (sch : schema) (table sorting_key : string)
         (entries : list column_entry) (st : state),
    lookup table sch = Some entries ->
    Forall (fun col =>
              (exists z, lookup sorting_key col = Some (SInt z)) /\
              (exists nm, lookup "column_name" col = Some nm)) entries ->
    exists sorted_schema names,
      fst (get_column_names sch table sorting_key st) = Ok names /\
      Forall2 (fun col nm => lookup "column_name" col = Some nm)
              sorted_schema names /\
      List.length names = List.length entries /\
      Permutation entries sorted_schema /\
      StronglySorted Z.le (map (position_under sorting_key) sorted_schema) /\
      forall p,
        filter (fun col => Z.eqb (position_under sorting_key col) p)
               sorted_schema
        = filter (fun col => Z.eqb (position_under sorting_key col) p)
                 entries.
Proof.
  intros sch table key entries st Ht Hall.
  destruct (sorted_by_position column_entry
              (fun col : column_entry => getitem col key)
              (position_under key) entries) as [s [E [P [S F]]]].
  { eapply Forall_impl; [| exact Hall]. cbn. intros col [[z Hz] _].
    unfold getitem, position_under. now rewrite Hz. }
  assert (Hs : Forall (fun col_detail : column_entry =>
                         getitem col_detail "column_name"
                         = Ok (name_under col_detail)) s).
  { apply (Permutation_Forall P). eapply Forall_impl; [| exact Hall].
    cbn. intros col [_ [nm Hn]]. unfold getitem, name_under. now rewrite Hn. }
  exists s, (map name_under s).
  split; [| split; [| split; [| split; [| split]]]].
  - unfold get_column_names. unfold_m.
    rewrite (lookup_getitem _ _ _ _ Ht). unfold_m. rewrite E. unfold_m.
    match goal with
    | |- context [map_outcome ?f ?l] =>
        replace (map_outcome f l) with (Ok (map name_under s))
          by (symmetry; apply map_outcome_total; exact Hs)
    end.
    reflexivity.
  - clear -Hs. induction Hs as [|col s Hc _ IH]; cbn; constructor; auto.
    unfold getitem, name_under in *.
    destruct (lookup "column_name" col); [reflexivity | discriminate].
  - rewrite length_map. symmetry. now apply Permutation_length.
  - exact P.
  - exact S.
  - exact F.
Qed.

Lemma tied_columns_are_stably_sorted :
  exists sorted_schema names,
    fst (get_column_names Example.tied_schema "t" default_sorting_key
                          Example.empty_state) = Ok names /\
    Forall2 (fun col nm => lookup "column_name" col = Some nm)
            sorted_schema names /\
    List.length names = 4 /\
    Permutation
      [Example.column "late" 5; Example.column "x" 1;
       Example.column "early" 0; Example.column "y" 1] sorted_schema /\
    StronglySorted Z.le
      (map (position_under default_sorting_key) sorted_schema) /\
    forall p,
      filter (fun col => Z.eqb (position_under default_sorting_key col) p)
             sorted_schema
      = filter (fun col => Z.eqb (position_under default_sorting_key col) p)
          [Example.column "late" 5; Example.column "x" 1;
           Example.column "early" 0; Example.column "y" 1].
Proof.
  apply (column_names_are_stably_sorted Example.tied_schema "t"
           default_sorting_key
           [Example.column "late" 5; Example.column "x" 1;
            Example.column "early" 0; Example.column "y" 1]
           Example.empty_state).
  - reflexivity.
  - repeat constructor; eexists; reflexivity.
Defined.

Example tied_columns :
  fst (get_column_names Example.tied_schema "t" default_sorting_key
                        Example.empty_state)
  = Ok [SStr "early"; SStr "x"; SStr "y"; SStr "late"].
Proof. vm_compute. reflexivity. Qed.

(** A dataset absent from the schema is a [KeyError]. *)
Example unknown_dataset :
  fst (get_column_names Example.sales_schema "stock" default_sorting_key
                        Example.empty_state)
  = Err (KeyError "stock").
Proof. vm_compute. reflexivity. Qed.

(** ** Rows with too few or too many fields *)

Module FrameFacts.
Import Pandas.










End FrameFacts.




Example short_row_record :
  fst (read_csv "/data/src/t/part-short" Example.abc Example.ragged_state)
  = Ok (Pandas.mkDF Example.abc
          [[Pandas.CStr "p"; Pandas.CStr "q"; Pandas.CStr "r"];
           [Pandas.CStr "t"; Pandas.CStr "u"; Pandas.CNull]]).
Proof. vm_compute. reflexivity. Qed.


(* ================================================================== *)
(** * Further properties of the program *)
(* ================================================================== *)

(** ** The environment of a run *)

(** X1.  When [SRC_BASE_DIR] or [TGT_BASE_DIR] is unset or empty, [main] logs
    the [NameError] as critical and raises it; it scans and reads nothing,
    whatever the dataset argument. *)
Theorem main_without_base_dirs :
  forall (arg : ds_arg) (st : state),
    falsy_str (lookup "SRC_BASE_DIR" (environ st)) = true \/
    falsy_str (lookup "TGT_BASE_DIR" (environ st)) = true ->
    main arg st =
    (Err missing_dirs,
     logged st AppLogger CRITICAL (MissingEnvironment missing_dirs)).
Proof.
  intros arg st H. unfold main, base_dirs, missing_dirs. unfold_m.
  destruct (lookup "SRC_BASE_DIR" (environ st)) as [s|];
    destruct (lookup "TGT_BASE_DIR" (environ st)) as [t|];
    cbn [falsy_str] in *.
  - destruct (String.eqb t ""), (String.eqb s ""); cbn [orb];
      try reflexivity. destruct H; discriminate.
  - reflexivity.
  - destruct (String.eqb t ""); reflexivity.
  - reflexivity.
Qed.

Lemma main_without_target_dir :
  main DsNone no_target_state =
  (Err missing_dirs,
   logged no_target_state AppLogger CRITICAL (MissingEnvironment missing_dirs)).
Proof. apply main_without_base_dirs. right. reflexivity. Defined.

(** ** Schemas that are refused *)

(** X2.  A dataset that the schema document does not name makes
    [convert_file] raise [KeyError] of that name, logged as a malformed
    schema and again as unhandled: the schema document is loaded, and no
    partition is searched for, read or written. *)
Theorem dataset_without_schema_entry_is_key_error :
  forall (src tgt ds : string) (st : state) (f : file) (sch : schema),
    lookup (OsPath.join src "schemas.json") (fs st) = Some (File f) ->
    file_json f = Some sch ->
    lookup ds sch = None ->
    convert_file src tgt ds st =
    (Err (KeyError ds),
     mkState (environ st) (fs st) (denied st)
       (log st ++
        [mkLog AppLogger INFO (SchemaLoaded (OsPath.join src "schemas.json"));
         mkLog AppLogger ERROR
               (MalformedSchema default_sorting_key (KeyError ds));
         mkLog RootLogger CRITICAL (UnhandledException (KeyError ds))])
       (io st ++ [IoLoadJson (OsPath.join src "schemas.json")])).
Proof.
  intros src tgt ds st f sch Hl Hj Hd.
  unfold convert_file, read_schema, load_json, get_column_names, getitem.
  unfold_m. rewrite Hl, Hj. unfold_m. rewrite Hd. unfold_m.
  rewrite <- !app_assoc. reflexivity.
Qed.

Lemma orders_have_no_schema_entry :
  fst (convert_file "/data/src" "/data/tgt" "orders" Example.two_state)
  = Err (KeyError "orders") /\
  io (snd (convert_file "/data/src" "/data/tgt" "orders" Example.two_state))
  = [IoLoadJson "/data/src/schemas.json"].
Proof.
  rewrite (dataset_without_schema_entry_is_key_error
             "/data/src" "/data/tgt" "orders" Example.two_state
             (mkFile ["(schema document)"] (Some Example.two_schema))
             Example.two_schema eq_refl eq_refl eq_refl).
  split; reflexivity.
Defined.

Lemma map_outcome_fails :
  forall (A B : Type) (f : A -> outcome B) (e : exn) (l : list A),
    (forall x e', f x = Err e' -> e' = e) ->
    Exists (fun x => exists e', f x = Err e') l ->
    map_outcome f l = Err e.
Proof.
  intros A B f e l Hf H. induction H as [x l [e' Hx] | x l _ IH]; cbn.
  - rewrite Hx. now rewrite (Hf x e' Hx).
  - destruct (f x) as [y|e'] eqn:E.
    + now rewrite IH.
    + now rewrite (Hf x e' E).
Qed.

(** X3.  When a column entry of the table lacks the sorting key,
    [get_column_names] raises [KeyError] of that key and logs it as a
    malformed schema, whatever the other entries hold. *)
Theorem missing_sort_key_is_key_error :
  forall (sch : schema) (table sorting_key : string)
         (entries : list column_entry) (st : state),
    lookup table sch = Some entries ->
    Exists (fun col => lookup sorting_key col = None) entries ->
    get_column_names sch table sorting_key st =
    (Err (KeyError sorting_key),
     logged st AppLogger ERROR
            (MalformedSchema sorting_key (KeyError sorting_key))).
Proof.
  intros sch table key entries st Ht Hex.
  unfold get_column_names. unfold_m.
  rewrite (lookup_getitem _ _ _ _ Ht). unfold_m. unfold sorted.
  match goal with
  | |- context [map_outcome ?f ?l] =>
      replace (map_outcome f l)
        with (@Err (list (scalar * column_entry)) (KeyError key))
  end.
  - reflexivity.
  - symmetry. apply map_outcome_fails.
    + intros x e'. unfold getitem. destruct (lookup key x); congruence.
    + eapply Exists_impl; [| exact Hex]. cbn. intros col Hc.
      exists (KeyError key). unfold getitem. now rewrite Hc.
Qed.

Lemma unplaced_column_is_key_error :
  get_column_names unplaced_schema "t" default_sorting_key
                   Example.empty_state
  = (Err (KeyError "column_position"),
     logged Example.empty_state AppLogger ERROR
            (MalformedSchema default_sorting_key
                             (KeyError "column_position"))).
Proof.
  apply (missing_sort_key_is_key_error unplaced_schema "t" default_sorting_key
           [Example.column "a" 0; [("column_name", SStr "b")]]).
  - reflexivity.
  - apply Exists_cons_tl. apply Exists_cons_hd. reflexivity.
Defined.

(** X4.  When the entries of the table all have an integer under the
    sorting key and one of them has no [column_name], [get_column_names]
    raises [KeyError] of [column_name] and logs it as a malformed
    schema. *)
Theorem missing_column_name_is_key_error :
  forall (sch : schema) (table sorting_key : string)
         (entries : list column_entry) (st : state),
    lookup table sch = Some entries ->
    Forall (fun col => exists z, lookup sorting_key col = Some (SInt z))
           entries ->
    Exists (fun col => lookup "column_name" col = None) entries ->
    get_column_names sch table sorting_key st =
    (Err (KeyError "column_name"),
     logged st AppLogger ERROR
            (MalformedSchema sorting_key (KeyError "column_name"))).
Proof.
  intros sch table key entries st Ht Hall Hex.
  destruct (sorted_by_position column_entry
              (fun col : column_entry => getitem col key)
              (position_under key) entries) as [s [E [P _]]].
  { eapply Forall_impl; [| exact Hall]. cbn. intros col [z Hz].
    unfold getitem, position_under. now rewrite Hz. }
  unfold get_column_names. unfold_m.
  rewrite (lookup_getitem _ _ _ _ Ht). unfold_m. rewrite E. unfold_m.
  match goal with
  | |- context [map_outcome ?f ?l] =>
      replace (map_outcome f l)
        with (@Err (list scalar) (KeyError "column_name"))
  end.
  - reflexivity.
  - symmetry. apply map_outcome_fails.
    + intros x e'. unfold getitem.
      destruct (lookup "column_name" x); congruence.
    + apply (Permutation_Exists P) in Hex.
      eapply Exists_impl; [| exact Hex]. cbn. intros col Hc.
      exists (KeyError "column_name"). unfold getitem. now rewrite Hc.
Qed.

Lemma unnamed_column_is_key_error :
  get_column_names unnamed_schema "t" default_sorting_key Example.empty_state
  = (Err (KeyError "column_name"),
     logged Example.empty_state AppLogger ERROR
            (MalformedSchema default_sorting_key (KeyError "column_name"))).
Proof.
  apply (missing_column_name_is_key_error unnamed_schema "t"
           default_sorting_key
           [Example.column "a" 1; [("column_position", SInt 0)]]).
  - reflexivity.
  - repeat constructor; eexists; reflexivity.
  - apply Exists_cons_tl. apply Exists_cons_hd. reflexivity.
Defined.

Lemma py_lt_ok_same_kind :
  forall a b r, py_lt a b = Ok r -> same_kind a b = true.
Proof. intros [|x|x] [|y|y] r H; cbn in *; congruence. Qed.

Lemma py_lt_err : forall a b e, py_lt a b = Err e -> e = TypeError.
Proof. intros [|x|x] [|y|y] e H; cbn in *; congruence. Qed.

Lemma insert_keyed_err :
  forall (A : Type) (x : scalar * A) l e,
    insert_keyed x l = Err e -> e = TypeError.
Proof.
  intros A x l e. induction l as [|y l IH]; cbn; [discriminate|].
  destruct (py_lt (fst y) (fst x)) as [[|]|e'] eqn:P.
  - destruct (insert_keyed x l); [discriminate|]. intros [= <-]. now apply IH.
  - discriminate.
  - intros [= <-]. eapply py_lt_err. exact P.
Qed.

Lemma sort_keyed_err :
  forall (A : Type) (l : list (scalar * A)) e,
    sort_keyed l = Err e -> e = TypeError.
Proof.
  intros A l e. induction l as [|x l IH]; cbn; [discriminate|].
  destruct (sort_keyed l) as [s|e'].
  - apply insert_keyed_err.
  - intros [= <-]. now apply IH.
Qed.

Lemma insert_keyed_perm :
  forall (A : Type) (x : scalar * A) l r,
    insert_keyed x l = Ok r -> Permutation (x :: l) r.
Proof.
  intros A x l. induction l as [|y l IH]; cbn; intros r H.
  - injection H as <-. reflexivity.
  - destruct (py_lt (fst y) (fst x)) as [[|]|e'].
    + destruct (insert_keyed x l) as [r'|]; [| discriminate].
      injection H as <-. rewrite perm_swap. constructor. now apply IH.
    + injection H as <-. reflexivity.
    + discriminate.
Qed.

Lemma sort_keyed_perm :
  forall (A : Type) (l s : list (scalar * A)),
    sort_keyed l = Ok s -> Permutation l s.
Proof.
  intros A l. induction l as [|x l IH]; cbn; intros s H.
  - injection H as <-. reflexivity.
  - destruct (sort_keyed l) as [s'|]; [| discriminate].
    rewrite <- (insert_keyed_perm A x s' s H). constructor. now apply IH.
Qed.

Lemma sort_keyed_cons :
  forall (A : Type) (x : scalar * A) l,
    sort_keyed (x :: l) =
    match sort_keyed l with
    | Ok s => insert_keyed x s
    | Err e => Err e
    end.
Proof. reflexivity. Qed.

Lemma same_kind_trans :
  forall a b c, same_kind a b = true -> same_kind b c = true ->
                same_kind a c = true.
Proof. intros [|x|x] [|y|y] [|z|z]; cbn; congruence. Qed.

Lemma same_kind_sym :
  forall a b, same_kind a b = true -> same_kind b a = true.
Proof. intros [|x|x] [|y|y]; cbn; congruence. Qed.

(** The keys of a list of two or more elements that sorts are all of the
    kind of the first. *)
Lemma sort_keyed_same_kind :
  forall (A : Type) (l s : list (scalar * A)),
    sort_keyed l = Ok s ->
    forall x y rest, l = x :: y :: rest ->
      Forall (fun e => same_kind (fst x) (fst e) = true) l.
Proof.
  intros A l. induction l as [|x l IH]; intros s H a b rest E;
    [discriminate E|].
  injection E as <- ->.
  rewrite sort_keyed_cons in H.
  destruct (sort_keyed (b :: rest)) as [s'|] eqn:S; [| discriminate H].
  pose proof (sort_keyed_perm A _ _ S) as P.
  destruct s' as [|y s'].
  { apply Permutation_sym, Permutation_nil in P. discriminate. }
  cbn [insert_keyed] in H.
  destruct (py_lt (fst y) (fst x)) as [r|] eqn:L; [| discriminate H].
  apply py_lt_ok_same_kind in L. apply same_kind_sym in L.
  assert (Hy : In y (b :: rest))
    by (apply (Permutation_in _ (Permutation_sym P)); now left).
  assert (Hxx : same_kind (fst x) (fst x) = true)
    by (eapply same_kind_trans; [exact L | now apply same_kind_sym]).
  constructor; [exact Hxx|].
  destruct rest as [|c rest'].
  - destruct Hy as [<- | []]. constructor; [exact L | constructor].
  - pose proof (IH _ eq_refl b c rest' eq_refl) as F.
    assert (Hby : same_kind (fst b) (fst y) = true)
      by (rewrite Forall_forall in F; now apply F).
    assert (Hxb : same_kind (fst x) (fst b) = true)
      by (eapply same_kind_trans; [exact L | now apply same_kind_sym]).
    eapply Forall_impl; [| exact F]. cbn. intros e He.
    eapply same_kind_trans; eassumption.
Qed.

(** X5.  When a table of two or more entries has sorting keys that cannot
    be ordered against the first one (an integer and a string, or a
    null), [get_column_names] raises [TypeError], and logs it as critical
    through its general handler, not as a malformed schema. *)
Theorem incomparable_sort_keys_are_type_error :
  forall (sch : schema) (table sorting_key : string)
         (first second : column_entry) (others : list column_entry)
         (st : state),
    lookup table sch = Some (first :: second :: others) ->
    Forall (fun col => exists k, lookup sorting_key col = Some k)
           (first :: second :: others) ->
    Exists (fun col => same_kind (key_under sorting_key first)
                                 (key_under sorting_key col) = false)
           (first :: second :: others) ->
    get_column_names sch table sorting_key st =
    (Err TypeError, logged st AppLogger CRITICAL (SchemaUnhandled TypeError)).
Proof.
  intros sch table key c1 c2 rest st Ht Hall Hex.
  set (entries := c1 :: c2 :: rest) in *.
  unfold get_column_names. unfold_m.
  rewrite (lookup_getitem _ _ _ _ Ht). unfold_m. unfold sorted.
  match goal with
  | |- context [map_outcome ?f ?l] =>
      replace (map_outcome f l)
        with (Ok (map (fun c : column_entry => (key_under key c, c)) entries))
  end.
  2:{ symmetry. apply map_outcome_total.
      eapply Forall_impl; [| exact Hall]. cbn. intros col [k Hk].
      unfold getitem, key_under. now rewrite Hk. }
  destruct (sort_keyed (map (fun c : column_entry => (key_under key c, c))
                            entries)) as [s|e] eqn:S.
  - exfalso.
    pose proof (sort_keyed_same_kind _ _ _ S
                  (key_under key c1, c1) (key_under key c2, c2)
                  (map (fun c : column_entry => (key_under key c, c)) rest)
                  eq_refl) as F.
    rewrite Forall_map in F. cbn [fst] in F.
    apply Exists_exists in Hex as [col [Hin Hk]].
    rewrite Forall_forall in F. rewrite (F col Hin) in Hk. discriminate.
  - apply sort_keyed_err in S. subst e. reflexivity.
Qed.

Lemma mixed_positions_are_type_error :
  get_column_names mixed_schema "m" default_sorting_key Example.empty_state =
  (Err TypeError,
   logged Example.empty_state AppLogger CRITICAL (SchemaUnhandled TypeError)).
Proof.
  apply (incomparable_sort_keys_are_type_error mixed_schema "m"
           default_sorting_key
           [("column_name", SStr "a"); ("column_position", SInt 1)]
           [("column_name", SStr "b"); ("column_position", SStr "2")]
           [] Example.empty_state).
  - reflexivity.
  - repeat constructor; eexists; reflexivity.
  - apply Exists_cons_tl. apply Exists_cons_hd. reflexivity.
Defined.

(** X6.  When the schema document is not JSON, [convert_file] raises the
    decoding error, logged by [read_schema] as an error and by
    [convert_file] as critical; the only file operation is the load of
    the document, and the files are as before. *)
Theorem malformed_schema_aborts_before_locating_partitions :
  forall (src tgt ds : string) (st : state) (f : file),
    lookup (OsPath.join src "schemas.json") (fs st) = Some (File f) ->
    file_json f = None ->
    convert_file src tgt ds st =
    (Err JSONDecodeError,
     mkState (environ st) (fs st) (denied st)
       ((log st ++
         [mkLog AppLogger ERROR
            (SchemaUnparsable (OsPath.join src "schemas.json")
                              JSONDecodeError)]) ++
        [mkLog RootLogger CRITICAL (UnhandledException JSONDecodeError)])
       (io st ++ [IoLoadJson (OsPath.join src "schemas.json")])).
Proof.
  intros src tgt ds st f Hl Hj.
  unfold convert_file, read_schema, load_json. unfold_m.
  rewrite Hl, Hj. reflexivity.
Qed.

Lemma unparsable_schema_stops_the_dataset :
  fst (convert_file "/data/src" "/data/tgt" "sales" unparsable_state)
  = Err JSONDecodeError /\
  io (snd (convert_file "/data/src" "/data/tgt" "sales" unparsable_state))
  = [IoLoadJson "/data/src/schemas.json"].
Proof.
  rewrite (malformed_schema_aborts_before_locating_partitions
             "/data/src" "/data/tgt" "sales" unparsable_state
             (mkFile ["{"] None) eq_refl eq_refl).
  split; reflexivity.
Defined.

(** ** The partitions of a dataset *)

(** X7.  Column names with a repetition make [read_csv] raise [ValueError]
    before the partition file is opened; not being a parser error, it is
    logged as critical. *)
Theorem duplicate_names_are_refused_before_reading :
  forall (file_path : string) (names : list scalar) (st : state),
    Pandas.has_dup names = true ->
    read_csv file_path names st =
    (Err (ValueError "Duplicate names are not allowed."),
     logged st AppLogger CRITICAL
       (CsvUnhandled file_path
          (ValueError "Duplicate names are not allowed."))).
Proof.
  intros file_path names st H. unfold read_csv, Pandas.read_csv.
  rewrite H. reflexivity.
Qed.

Lemma twice_named_column_is_refused :
  read_csv "/data/src/sales/part-001" [SStr "id"; SStr "id"]
           Example.two_state
  = (Err (ValueError "Duplicate names are not allowed."),
     logged Example.two_state AppLogger CRITICAL
       (CsvUnhandled "/data/src/sales/part-001"
          (ValueError "Duplicate names are not allowed."))).
Proof. apply duplicate_names_are_refused_before_reading. reflexivity. Defined.

(** X8.  When the generator of [process_files] runs to its end, it has
    yielded exactly the files the pattern matched, and at least one: an
    empty match raises instead. *)
Theorem process_files_never_yields_nothing :
  forall (src table : string) (st : state) (l : list string),
    fst (drain (process_files src table) st) = Ok l ->
    l = Glob.glob_in (fs st) (Glob.PartsIn (src ++ "/" ++ table)) /\
    l <> [].
Proof.
  intros src table st l H.
  rewrite drain_next in H.
  pose proof (next_process_files src table st) as N. cbn zeta in N.
  rewrite N in H. clear N.
  destruct (Glob.glob_in (fs st) (Glob.PartsIn (src ++ "/" ++ table)))
    as [|f rest] eqn:E.
  - discriminate H.
  - rewrite next_yield_files in H.
    match type of H with context [drain _ ?s] =>
      destruct (drain_yield_files src table rest s) as [st' [D _]] end.
    rewrite D in H. cbn in H. injection H as <-.
    split; [reflexivity | discriminate].
Qed.

Lemma sales_partitions_are_yielded :
  ["/data/src/sales/part-001"; "/data/src/sales/part-002"]
  = Glob.glob_in (fs Example.two_state)
                 (Glob.PartsIn ("/data/src" ++ "/" ++ "sales")) /\
  ["/data/src/sales/part-001"; "/data/src/sales/part-002"] <> [].
Proof.
  apply (process_files_never_yields_nothing "/data/src" "sales"
           Example.two_state). reflexivity.
Defined.

Lemma scanned_file_belongs_to_its_dataset :
  forall src p,
    Glob.matches (Glob.PartsBelow src) p = true ->
    let d := OsPath.basename (fst (OsPath.split p)) in
    plain_name d /\ Glob.matches (Glob.PartsIn (src ++ "/" ++ d)) p = true.
Proof.
  intros src p H. cbn zeta.
  assert (P : plain_name (OsPath.basename (fst (OsPath.split p)))).
  { unfold Glob.matches in H.
    destruct (Str.strip_prefix (Str.chars src ++ [Str.slash]) (Str.chars p))
      as [rest|] eqn:E; [| discriminate].
    apply PathFacts.strip_prefix_Some in E.
    destruct (Str.split_first_slash rest) as [[d' f]|] eqn:S; [| discriminate].
    apply PathFacts.split_first_slash_elim in S as [-> Hd'].
    apply andb_true_iff in H as [Hs Hp].
    rewrite <- (PathFacts.of_chars_chars p), E, <- app_assoc. cbn [app].
    rewrite PathFacts.parent_name.
    - unfold plain_name. rewrite PathFacts.chars_of_chars. split; assumption.
    - intros Z. rewrite Z in Hs. discriminate.
    - exact Hd'.
    - now apply PathFacts.is_part_name_no_slash. }
  split; [exact P|].
  rewrite (matches_dataset src _ p P), H, String.eqb_refl. reflexivity.
Qed.

(** X9.  Every dataset name that [main] finds by its scan (a name without
    wildcard characters, under a root without any) has at least one
    partition for [process_files]: a discovered dataset never ends in the
    [ValueError] of an empty search. *)
Theorem discovered_dataset_has_partitions :
  forall (files : filesystem) (src d : string),
    literal (src ++ "/" ++ d) = true ->
    In d (discovered files src) ->
    Glob.glob_in files (Glob.PartsIn (src ++ "/" ++ d)) <> [].
Proof.
  intros files src d _ H. unfold discovered in H.
  apply in_map_iff in H as [p [<- Hp]].
  unfold Glob.glob_in in *. apply filter_In in Hp as [Hin Hm].
  destruct (scanned_file_belongs_to_its_dataset src p Hm) as [_ M].
  intros E.
  assert (I : In p (filter
                      (Glob.matches
                         (Glob.PartsIn
                            (src ++ "/"
                             ++ OsPath.basename (fst (OsPath.split p)))))
                      (Glob.listing files)))
    by (apply filter_In; split; assumption).
  rewrite E in I. exact I.
Qed.

Lemma discovered_stock_has_partitions :
  literal ("/data/src" ++ "/" ++ "stock") = true /\
  In "stock" (discovered Example.two_files "/data/src") /\
  Glob.glob_in Example.two_files (Glob.PartsIn ("/data/src" ++ "/" ++ "stock"))
  <> [].
Proof.
  assert (H : In "stock" (discovered Example.two_files "/data/src"))
    by (vm_compute; auto).
  split; [reflexivity|]. split; [exact H|].
  exact (discovered_dataset_has_partitions Example.two_files "/data/src"
           "stock" eq_refl H).
Defined.

(** ** A dataset that fails *)

Lemma for_list_app :
  forall (A : Type) (body : A -> M unit) (l1 l2 : list A) st st1,
    for_list l1 body st = (Ok tt, st1) ->
    for_list (l1 ++ l2) body st = for_list l2 body st1.
Proof.
  intros A body l1. induction l1 as [|x l1 IH]; intros l2 st st1 H.
  - cbn in H. injection H as <-. reflexivity.
  - cbn [for_list app] in *. unfold bind in *.
    destruct (body x st) as [[u|e] s]; [| discriminate].
    now apply IH.
Qed.

(** X10.  When [convert_file] fails for a dataset of the list, [main] logs
    the error as critical and raises it, in the state the failing dataset
    left: the datasets after it are not converted. *)
Theorem failing_dataset_aborts_the_run :
  forall (done rest : list string) (d src tgt : string) (e : exn)
         (st st1 st2 st3 : state),
    base_dirs st = (Ok (src, tgt), st1) ->
    for_list done (convert_file src tgt)
      (logged st1 AppLogger INFO
              (RunWithArguments (DsList (done ++ d :: rest))))
      = (Ok tt, st2) ->
    convert_file src tgt d st2 = (Err e, st3) ->
    main (DsList (done ++ d :: rest)) st =
    (Err e, logged st3 AppLogger CRITICAL (UnhandledException e)).
Proof.
  intros done rest d src tgt e st st1 st2 st3 Hb Hd Hf.
  rewrite main_on_list by (destruct done; discriminate).
  rewrite Hb, (for_list_app _ _ done (d :: rest) _ st2 Hd).
  rewrite (for_list_stops _ _ d rest e st2 st3 Hf). reflexivity.
Qed.

Lemma run_stops_at_orders :
  fst (main (DsList ["sales"; "orders"; "stock"]) Example.two_state)
  = Err (KeyError "orders") /\
  filter is_read_csv
         (io (snd (main (DsList ["sales"; "orders"; "stock"])
                        Example.two_state)))
  = [IoReadCsv "/data/src/sales/part-001";
     IoReadCsv "/data/src/sales/part-002"].
Proof.
  pose proof
    (failing_dataset_aborts_the_run ["sales"] ["stock"] "orders"
       "/data/src" "/data/tgt" (KeyError "orders") Example.two_state
       Example.two_state
       (snd (for_list ["sales"] (convert_file "/data/src" "/data/tgt")
               (logged Example.two_state AppLogger INFO
                  (RunWithArguments (DsList ["sales"; "orders"; "stock"])))))
       (snd (convert_file "/data/src" "/data/tgt" "orders"
               (snd (for_list ["sales"]
                       (convert_file "/data/src" "/data/tgt")
                       (logged Example.two_state AppLogger INFO
                          (RunWithArguments
                             (DsList ["sales"; "orders"; "stock"])))))))
       ltac:(vm_compute; reflexivity)
       ltac:(vm_compute; reflexivity)
       ltac:(vm_compute; reflexivity)) as H.
  cbn [app] in H. rewrite H. split; vm_compute; reflexivity.
Defined.

(** ** What [to_json] writes *)







Lemma lookup_store_other :
  forall (V : Type) (k k' : string) (v : V) (m : list (string * V)),
    k' <> k -> lookup k' (store k v m) = lookup k' m.
Proof.
  intros V k k' v m H. induction m as [|[a b] m IH]; cbn.
  - apply String.eqb_neq in H. now rewrite H.
  - destruct (String.eqb k a) eqn:E; cbn.
    + apply String.eqb_eq in E. subst a.
      apply String.eqb_neq in H. now rewrite H.
    + destruct (String.eqb k' a); [reflexivity | exact IH].
Qed.


Lemma lookup_app_none :
  forall (V : Type) (k : string) (m m' : list (string * V)),
    lookup k m = None -> lookup k (m ++ m') = lookup k m'.
Proof.
  intros V k m m' H. induction m as [|[a b] m IH]; cbn in *.
  - reflexivity.
  - destruct (String.eqb k a); [discriminate | now apply IH].
Qed.

Lemma store_same :
  forall (V : Type) (k : string) (v : V) (m : list (string * V)),
    lookup k m = Some v -> store k v m = m.
Proof.
  intros V k v m. induction m as [|[a b] m IH]; cbn; intros H.
  - discriminate.
  - destruct (String.eqb k a) eqn:E.
    + apply String.eqb_eq in E. subst a. now injection H as ->.
    + f_equal. now apply IH.
Qed.

Lemma to_json_success :
  forall df tgt csv ds st,
    fst (to_json df tgt csv ds st) = Ok true ->
    let dir := OsPath.join tgt ds in
    let name := json_file_name_of csv in
    fs (snd (to_json df tgt csv ds st))
      = store name (text_file (Pandas.json_lines df)) (with_dir dir (fs st)) /\
    denied (snd (to_json df tgt csv ds st)) = denied st /\
    lookup dir (with_dir dir (fs st)) = Some Dir /\
    existsb (String.eqb name) (denied st) = false /\
    lookup name (with_dir dir (fs st)) <> Some Dir.
Proof.
  intros df tgt csv ds st. cbn zeta.
  unfold to_json, makedirs, Pandas.to_json, with_dir. unfold_m.
  destruct (lookup (OsPath.join tgt ds) (fs st)) as [[f|]|] eqn:L; unfold_m.
  - discriminate.
  - destruct (existsb (String.eqb (json_file_name_of csv)) (denied st)) eqn:D;
      unfold_m; [discriminate|].
    destruct (lookup (json_file_name_of csv) (fs st)) as [[f|]|] eqn:Q;
      unfold_m; try discriminate; intros _;
      (repeat split; [exact L | congruence]).
  - destruct (existsb (String.eqb (OsPath.join tgt ds)) (denied st)) eqn:D0;
      unfold_m; [discriminate|].
    destruct (existsb (String.eqb (json_file_name_of csv)) (denied st)) eqn:D;
      unfold_m; [discriminate|].
    destruct (lookup (json_file_name_of csv)
                     (fs st ++ [(OsPath.join tgt ds, Dir)]))
      as [[f|]|] eqn:Q; unfold_m; try discriminate; intros _;
      (repeat split;
       [ rewrite (lookup_app_none _ _ _ _ L); cbn;
         now rewrite String.eqb_refl
       | congruence ]).
Qed.

(** X11.  After a successful [to_json], the same call succeeds again and
    leaves every file and directory as the first call left them. *)
Theorem to_json_is_idempotent :
  forall (df : Pandas.DataFrame) (tgt csv ds : string) (st : state),
    fst (to_json df tgt csv ds st) = Ok true ->
    let st1 := snd (to_json df tgt csv ds st) in
    fst (to_json df tgt csv ds st1) = Ok true /\
    fs (snd (to_json df tgt csv ds st1)) = fs st1.
Proof.
  intros df tgt csv ds st H. cbn zeta.
  destruct (to_json_success df tgt csv ds st H) as [F [Dn [Ld [Hd Hq]]]].
  cbn zeta in *.
  set (st1 := snd (to_json df tgt csv ds st)) in *.
  set (dir := OsPath.join tgt ds) in *.
  set (name := json_file_name_of csv) in *.
  set (v := text_file (Pandas.json_lines df)) in *.
  assert (Hne : dir <> name) by (intros E; rewrite <- E in Hq; contradiction).
  assert (L1 : lookup dir (fs st1) = Some Dir).
  { rewrite F, lookup_store_other by exact Hne. exact Ld. }
  assert (Q1 : lookup name (fs st1) = Some v).
  { rewrite F. apply lookup_store_same. }
  unfold to_json, makedirs, Pandas.to_json. unfold_m.
  fold dir name. rewrite L1. unfold_m. rewrite Dn, Hd. unfold_m.
  rewrite Q1. unfold v at 1. unfold text_file at 1. unfold_m.
  split; [reflexivity|]. fold (text_file (Pandas.json_lines df)). fold v.
  now apply store_same.
Qed.

Lemma second_write_changes_nothing :
  fst (to_json (Pandas.mkDF [SStr "id"] [[Pandas.CInt 1]]) "/data/tgt"
               "/data/src/sales/part-001" "sales"
               (snd (to_json (Pandas.mkDF [SStr "id"] [[Pandas.CInt 1]])
                             "/data/tgt" "/data/src/sales/part-001" "sales"
                             Example.sales_state)))
  = Ok true /\
  fs (snd (to_json (Pandas.mkDF [SStr "id"] [[Pandas.CInt 1]]) "/data/tgt"
                   "/data/src/sales/part-001" "sales"
                   (snd (to_json (Pandas.mkDF [SStr "id"] [[Pandas.CInt 1]])
                                 "/data/tgt" "/data/src/sales/part-001"
                                 "sales" Example.sales_state))))
  = fs (snd (to_json (Pandas.mkDF [SStr "id"] [[Pandas.CInt 1]]) "/data/tgt"
                     "/data/src/sales/part-001" "sales" Example.sales_state)).
Proof.
  apply (to_json_is_idempotent (Pandas.mkDF [SStr "id"] [[Pandas.CInt 1]])
           "/data/tgt" "/data/src/sales/part-001" "sales"
           Example.sales_state).
  reflexivity.
Defined.


(** ** What every step of a run preserves *)

Section Preserved.
Variable R : state -> state -> Prop.
Hypothesis R_refl : forall st, R st st.
Hypothesis R_trans : forall a b c, R a b -> R b c -> R a c.
Hypothesis R_log :
  forall st who lv m,
    is_error_processing (mkLog who lv m) = false ->
    R st (logged st who lv m).
Hypothesis R_io :
  forall st ev,
    R st (mkState (environ st) (fs st) (denied st) (log st) (io st ++ [ev])).

Lemma preserves_ret : forall A (a : A), preserves R (ret a).
Proof. intros A a st. apply R_refl. Qed.

Lemma preserves_raise : forall A e, preserves R (@raise A e).
Proof. intros A e st. apply R_refl. Qed.

Lemma preserves_lift : forall A (o : outcome A), preserves R (lift o).
Proof. intros A o st. apply R_refl. Qed.

Lemma preserves_get_state : preserves R get_state.
Proof. intros st. apply R_refl. Qed.

Lemma preserves_environ_get : forall name, preserves R (environ_get name).
Proof. intros name st. apply R_refl. Qed.

Lemma preserves_emit :
  forall who lv m,
    is_error_processing (mkLog who lv m) = false ->
    preserves R (emit who lv m).
Proof. intros who lv m H st. now apply R_log. Qed.

Lemma preserves_record_io : forall ev, preserves R (record_io ev).
Proof. intros ev st. apply R_io. Qed.

Lemma preserves_bind :
  forall A B (m : M A) (k : A -> M B),
    preserves R m -> (forall a, preserves R (k a)) -> preserves R (bind m k).
Proof.
  intros A B m k Hm Hk st. unfold bind.
  specialize (Hm st). destruct (m st) as [[a|e] st1]; cbn [snd] in *.
  - eapply R_trans; [exact Hm | apply Hk].
  - exact Hm.
Qed.

Lemma preserves_try :
  forall A (m : M A) (h : exn -> M A),
    preserves R m -> (forall e, preserves R (h e)) ->
    preserves R (try_except m h).
Proof.
  intros A m h Hm Hh st. unfold try_except.
  specialize (Hm st). destruct (m st) as [[a|e] st1]; cbn [snd] in *.
  - exact Hm.
  - eapply R_trans; [exact Hm | apply Hh].
Qed.

Lemma preserves_for_list :
  forall A (body : A -> M unit) l,
    (forall x, preserves R (body x)) -> preserves R (for_list l body).
Proof.
  intros A body l Hb. induction l as [|x l IH]; cbn [for_list].
  - apply preserves_ret.
  - apply preserves_bind; [apply Hb | intros _; exact IH].
Qed.

Lemma preserves_for_each_files :
  forall src table body l,
    (forall x, preserves R (body x)) ->
    preserves R (for_each (Gen (yield_files src table l)) body).
Proof.
  intros src table body l Hb. induction l as [|f l IH]; intros st;
    rewrite for_each_next, next_yield_files.
  - apply R_refl.
  - specialize (Hb f (logged st AppLogger INFO (FoundFile f src table))).
    destruct (body f _) as [[u|e] st2]; cbn [snd] in *.
    + eapply R_trans;
        [exact (R_log st AppLogger INFO (FoundFile f src table) eq_refl)|].
      eapply R_trans; [exact Hb | apply IH].
    + eapply R_trans;
        [exact (R_log st AppLogger INFO (FoundFile f src table) eq_refl)
        | exact Hb].
Qed.

Lemma preserves_for_each_process_files :
  forall src table body,
    (forall x, preserves R (body x)) ->
    preserves R (for_each (process_files src table) body).
Proof.
  intros src table body Hb st.
  rewrite for_each_next, next_process_files. cbn zeta.
  set (pat := Glob.pattern_text (Glob.PartsIn (src ++ "/" ++ table))).
  set (st0 := mkState (environ st) (fs st) (denied st) (log st)
                (io st ++ [IoGlob pat])).
  assert (H0 : R st st0) by apply R_io.
  assert (H1 : R st0 (logged st0 AppLogger INFO (SearchDirCreated pat)))
    by (now apply R_log).
  destruct (Glob.glob_in (fs st) (Glob.PartsIn (src ++ "/" ++ table)))
    as [|f l].
  - cbn [snd]. eapply R_trans; [exact H0|].
    eapply R_trans; [exact H1|].
    exact (R_log _ AppLogger ERROR (NoFileInSearchDir pat) eq_refl).
  - rewrite <- for_each_next.
    eapply R_trans; [exact H0|].
    eapply R_trans; [exact H1|].
    apply (preserves_for_each_files src table body (f :: l) Hb).
Qed.

Ltac preserves_step :=
  first
    [ apply preserves_bind; [| intros ?]
    | apply preserves_try; [| intros ?]
    | apply preserves_ret | apply preserves_raise | apply preserves_lift
    | apply preserves_emit; reflexivity | apply preserves_get_state
    | apply preserves_environ_get | apply preserves_record_io
    | match goal with
      | |- preserves _ (if ?b then _ else _) => destruct b
      | |- preserves _ (match ?x with _ => _ end) => destruct x
      end ].

Lemma preserves_read_schema : forall src, preserves R (read_schema src).
Proof. intros. unfold read_schema, load_json. repeat preserves_step. Qed.

Lemma preserves_get_column_names :
  forall sch table key, preserves R (get_column_names sch table key).
Proof. intros. unfold get_column_names. repeat preserves_step. Qed.

Lemma preserves_read_csv : forall p names, preserves R (read_csv p names).
Proof. intros. unfold read_csv, Pandas.read_csv. repeat preserves_step. Qed.

Lemma preserves_base_dirs : preserves R base_dirs.
Proof. unfold base_dirs. repeat preserves_step. Qed.

Lemma preserves_dataset_names :
  forall src arg, preserves R (dataset_names src arg).
Proof. intros. unfold dataset_names, Glob.glob. repeat preserves_step. Qed.

Hypothesis R_to_json :
  forall df tgt csv ds, preserves R (to_json df tgt csv ds).

Lemma preserves_convert_partition :
  forall tgt ds col csv, preserves R (convert_partition tgt ds col csv).
Proof.
  intros tgt ds col csv st. unfold convert_partition, bind.
  pose proof (preserves_read_csv csv col st) as Hr.
  destruct (read_csv csv col st) as [[df|e] st1]; cbn [snd] in *;
    [| exact Hr].
  pose proof (R_to_json df tgt csv ds st1) as Hw.
  destruct (to_json_outcome df tgt csv ds st1)
    as [[E _] | [e [pre [E _]]]];
    destruct (to_json df tgt csv ds st1) as [o st2];
    cbn [fst snd] in *; subst o; cbn [snd].
  - eapply R_trans; [exact Hr|]. eapply R_trans; [exact Hw|].
    exact (R_log st2 AppLogger INFO (ProcessedToJson ds csv) eq_refl).
  - eapply R_trans; [exact Hr | exact Hw].
Qed.

Lemma preserves_convert_file :
  forall src tgt ds, preserves R (convert_file src tgt ds).
Proof.
  intros. unfold convert_file.
  apply preserves_try; [| intros e; repeat preserves_step].
  apply preserves_bind; [apply preserves_read_schema | intros sch].
  apply preserves_bind; [apply preserves_get_column_names | intros col].
  apply preserves_for_each_process_files.
  intros x. apply preserves_convert_partition.
Qed.

Lemma preserves_main : forall arg, preserves R (main arg).
Proof.
  intros arg. unfold main.
  apply preserves_bind; [apply preserves_base_dirs | intros [src tgt]].
  apply preserves_try; [| intros e; repeat preserves_step].
  apply preserves_bind; [apply preserves_dataset_names | intros names].
  apply preserves_bind; [apply preserves_lift | intros l].
  apply preserves_for_list. intros d. apply preserves_convert_file.
Qed.

End Preserved.

(** ** What a run leaves untouched *)













(** ** The branch that reports a failed partition *)

Lemma same_reports_logged :
  forall st who lv m,
    is_error_processing (mkLog who lv m) = false ->
    same_reports st (logged st who lv m).
Proof.
  intros st who lv m H. unfold same_reports, failed_reports, logged.
  cbn [log]. rewrite filter_app. cbn [filter]. rewrite H. apply app_nil_r.
Qed.

Lemma same_reports_to_json :
  forall df tgt csv ds, preserves same_reports (to_json df tgt csv ds).
Proof.
  intros df tgt csv ds st. unfold same_reports, failed_reports.
  unfold to_json, makedirs, Pandas.to_json. unfold_m.
  repeat case_io; rewrite ?filter_app; cbn [filter is_error_processing
    log_message]; rewrite ?app_nil_r; reflexivity.
Qed.

(** X14.  No run of [main] logs "Error processing ... to JSON": [to_json]
    returns [True] or raises, so the branch of [convert_file] for a false
    result is never taken. *)
Theorem no_run_reports_a_failed_partition :
  forall (arg : ds_arg) (st : state),
    failed_reports (snd (main arg st)) = failed_reports st.
Proof.
  intros arg st.
  apply (preserves_main same_reports).
  - intros s. reflexivity.
  - intros a b c H1 H2. unfold same_reports in *. congruence.
  - exact same_reports_logged.
  - intros s ev. reflexivity.
  - exact same_reports_to_json.
Qed.

(** ** A dataset that converts *)












